(** * Meshtastic-Weather: transport acquisition and broadcast loops

    A shallow embedding of [config_init.py], [message_processing.py] and
    [server.py].  Python code that talks to the outside world (the
    configuration file, the serial port enumeration, the radio interfaces,
    the HTTP feed, the clock) is embedded in a state-and-exception monad:
    the state carries the trace of the external calls made so far and the
    heap of mutable dicts, and the replies of the outside world are given by
    an environment that sees the whole history.  [while True] loops take
    fuel; running out of fuel is a third outcome, distinct from returning
    and from raising. *)

From Stdlib Require Import ZArith String Ascii List Lia DecimalString.
From stdpp Require Import base option gmap strings list.
Import ListNotations.

Open Scope string_scope.

Set Warnings "-register-all".

(** ** Exceptions *)

(** The exception classes the three files raise, catch or can receive from
    the libraries.  [OtherException] stands for any other class derived
    from [Exception] (a connection error, a serial error, ...) and
    [OtherBaseException] for one derived from [BaseException] only
    ([SystemExit], ...). *)
Inductive exn_class : Type :=
| PermissionError
| FileNotFoundError
| ValueError
| KeyError
| AttributeError
| TypeError
| HTTPError
| JSONDecodeError
| OtherException (name : string)
| KeyboardInterrupt
| OtherBaseException (name : string).

(** An exception object: its class and what [str(e)] gives. *)
Record exn : Type := Exn { exn_cls : exn_class; exn_str : string }.

(** [except PermissionError] *)
Definition is_PermissionError (e : exn) : bool :=
  match exn_cls e with PermissionError => true | _ => false end.

(** [except FileNotFoundError] *)
Definition is_FileNotFoundError (e : exn) : bool :=
  match exn_cls e with FileNotFoundError => true | _ => false end.

(** [except KeyboardInterrupt] *)
Definition is_KeyboardInterrupt (e : exn) : bool :=
  match exn_cls e with KeyboardInterrupt => true | _ => false end.

(** [except Exception]: every class but those below [BaseException] only. *)
Definition is_Exception (e : exn) : bool :=
  match exn_cls e with
  | KeyboardInterrupt | OtherBaseException _ => false
  | _ => true
  end.

(** What a call into a library or the outside world answers. *)
Inductive reply (A : Type) : Type :=
| Returns (a : A)
| Raises (e : exn).
Arguments Returns {A} a.
Arguments Raises {A} e.

(** ** Python values *)

(** What [response.json()] can return.  A float is [m * 2^e]; a dict is the
    list of its items in insertion order, with distinct keys. *)
Inductive json : Type :=
| JNone
| JBool (b : bool)
| JInt (z : Z)
| JFloat (m e : Z)
| JStr (s : string)
| JList (l : list json)
| JDict (d : list (string * json)).

(** The parsed configuration file, as the parser answers for it: for every
    section of the file, and for every option that the section has or
    inherits from [DEFAULT] (under its lower-case name), what [get] gives
    for it, the value after interpolation or the exception that the
    interpolation raises. *)
Abbreviation sections := (gmap string (gmap string (reply string))).

(** The values stored in the system configuration dict. *)
Inductive value : Type :=
| VNone
| VStr (s : string)
| VConfigParser (c : sections).

(** The mutable dicts live in a heap and are passed around by reference. *)
Abbreviation loc := nat.
Abbreviation dict := (gmap string value).

(** The two interface classes of the radio library, with the argument the
    constructor was called with. *)
Inductive interface : Type :=
| SerialInterface (devPath : value)
| TCPInterface (hostname : value).

(** [requests.Response], as far as the code looks at it; [json_body] is
    what [response.json()] answers (it raises when the body does not
    decode). *)
Record response : Type := Response {
  status_code : Z;
  reason : string;
  url : string;
  text : string;
  json_body : reply json
}.

(** [argparse.Namespace] as [init_cli_parser] builds it: every argument is
    a string or [None]. *)
Record Namespace : Type := {
  args_config : option string;
  args_interface_type : option string;
  args_port : option string;
  args_host : option string;
  args_location : option string
}.

(** ** External calls *)

Inductive level : Type := INFO | ERROR.

(** One entry per call that leaves the program. *)
Inductive event : Type :=
| EvParseArgs
| EvConfigRead (filename : string)
| EvComports
| EvOpen (i : interface)
| EvGet (url : string) (headers : list (string * string))
| EvSendText (i : interface) (text : string) (destinationId : option Z)
| EvSendMessage (text : string) (destination : Z) (i : interface)
| EvClose (i : interface)
| EvSleep (secs : Z)
| EvLog (lvl : level) (msg : string)
| EvPrint (msg : string).

(** The outside world.  Every answer may depend on the history of calls.
    [py_str] is the interpreter's [str()] on a value that is not a string;
    [send_message] is [utils.send_message], which the repository imports
    but does not contain. *)
Record Env : Type := {
  parse_args : list event -> reply Namespace;
  config_read : list event -> string -> reply sections;
  comports : list event -> reply (list string);
  open_interface : list event -> interface -> reply unit;
  requests_get :
    list event -> string -> list (string * string) -> reply response;
  sendText : list event -> interface -> string -> option Z -> reply unit;
  send_message : list event -> string -> Z -> interface -> reply unit;
  close : list event -> interface -> reply unit;
  sleep : list event -> Z -> reply unit;
  py_str : json -> string
}.

(** ** The monad *)

Record state : Type := State { trace : list event; heap : gmap loc dict }.

Inductive outcome (A : Type) : Type :=
| Ret (a : A)
| Raise (e : exn)
| Diverge.
Arguments Ret {A} a.
Arguments Raise {A} e.
Arguments Diverge {A}.

Definition M (A : Type) : Type := state -> outcome A * state.

Definition ret {A} (a : A) : M A := fun st => (Ret a, st).

Definition bind {A B} (m : M A) (k : A -> M B) : M B :=
  fun st =>
    match m st with
    | (Ret a, st') => k a st'
    | (Raise e, st') => (Raise e, st')
    | (Diverge, st') => (Diverge, st')
    end.

Definition raise {A} (c : exn_class) (msg : string) : M A :=
  fun st => (Raise (Exn c msg), st).

Definition diverge {A} : M A := fun st => (Diverge, st).

Declare Scope prog_scope.
Delimit Scope prog_scope with prog.
Bind Scope prog_scope with M.
Notation "x <- m ;; k" := (bind m (fun x => k))
  (at level 100, m at next level, k at level 200, right associativity)
  : prog_scope.
Notation "m ;; k" := (bind m (fun _ => k))
  (at level 100, k at level 200, right associativity) : prog_scope.
Open Scope prog_scope.

(** [try: body except C as e: handler e], where [catches] decides
    [isinstance(e, C)]. *)
Definition try_except {A} (body : M A) (catches : exn -> bool)
    (handler : exn -> M A) : M A :=
  fun st =>
    match body st with
    | (Raise e, st') => if catches e then handler e st' else (Raise e, st')
    | r => r
    end.

(** [try: body except C1: handler1 except C2 as e: handler2 e]: the first
    clause that matches runs, and what it raises is not caught here. *)
Definition try_except2 {A} (body : M A)
    (catches1 : exn -> bool) (handler1 : exn -> M A)
    (catches2 : exn -> bool) (handler2 : exn -> M A) : M A :=
  fun st =>
    match body st with
    | (Raise e, st') =>
        if catches1 e then handler1 e st'
        else if catches2 e then handler2 e st'
        else (Raise e, st')
    | r => r
    end.

(** What a library answered, inside the monad. *)
Definition answer {A} (r : reply A) : M A :=
  fun st =>
    match r with
    | Returns a => (Ret a, st)
    | Raises e => (Raise e, st)
    end.

Definition emit (ev : event) (st : state) : state :=
  State (trace st ++ [ev]) (heap st).

(** An external call: the event is recorded, then the reply is delivered. *)
Definition call {A} (ev : event) (r : list event -> reply A) : M A :=
  fun st =>
    match r (trace st) with
    | Returns a => (Ret a, emit ev st)
    | Raises e => (Raise e, emit ev st)
    end.

Definition print (msg : string) : M unit :=
  fun st => (Ret tt, emit (EvPrint msg) st).

Definition logging (lvl : level) (msg : string) : M unit :=
  fun st => (Ret tt, emit (EvLog lvl msg) st).

(** ** Dicts on the heap *)

Definition deref (l : loc) (st : state) : dict := default ∅ (heap st !! l).

Definition new_dict (d : dict) : M loc :=
  fun st =>
    let l := fresh (dom (heap st)) in
    (Ret l, State (trace st) (<[l := d]> (heap st))).

(** [d[k] = v] *)
Definition setitem (l : loc) (k : string) (v : value) : M unit :=
  fun st => (Ret tt, State (trace st) (<[l := <[k := v]> (deref l st)]> (heap st))).

Definition quoted (k : string) : string := "'" ++ k ++ "'".

(** [d[k]] *)
Definition getitem (l : loc) (k : string) : M value :=
  fun st =>
    match deref l st !! k with
    | Some v => (Ret v, st)
    | None => (Raise (Exn KeyError (quoted k)), st)
    end.

(** [bool(v)] *)
Definition truthy (v : value) : bool :=
  match v with
  | VNone => false
  | VStr s => negb (s =? "")
  | VConfigParser _ => true
  end.

(** [v == s] for a string literal [s] *)
Definition eq_str (v : value) (s : string) : bool :=
  match v with
  | VStr s' => s' =? s
  | _ => false
  end.

(** [f"{v}"] *)
Definition format_value (v : value) : string :=
  match v with
  | VNone => "None"
  | VStr s => s
  | VConfigParser _ => "<configparser.ConfigParser object>"
  end.

(** [str(n)] for an int *)
Definition str_int (n : Z) : string := NilZero.string_of_int (Z.to_int n).

(** ** Python on JSON values *)

Definition nl : string := String (ascii_of_nat 10) EmptyString.

(** [type(x).__name__] *)
Definition type_name (x : json) : string :=
  match x with
  | JNone => "NoneType"
  | JBool _ => "bool"
  | JInt _ => "int"
  | JFloat _ _ => "float"
  | JStr _ => "str"
  | JList _ => "list"
  | JDict _ => "dict"
  end.

(** The first item of a dict with key [k]. *)
Fixpoint assoc (k : string) (d : list (string * json)) : option json :=
  match d with
  | [] => None
  | (k', v) :: d' => if k' =? k then Some v else assoc k d'
  end.

(** [s in t] for two strings *)
Fixpoint is_substring (s t : string) : bool :=
  String.prefix s t
  || match t with
     | EmptyString => false
     | String _ t' => is_substring s t'
     end.

(** The characters of a string, as [for c in s] yields them. *)
Fixpoint chars (s : string) : list json :=
  match s with
  | EmptyString => []
  | String c s' => JStr (String c EmptyString) :: chars s'
  end.

(** [bool(x)] *)
Definition json_truthy (x : json) : bool :=
  match x with
  | JNone => false
  | JBool b => b
  | JInt z => negb (z =? 0)%Z
  | JFloat m _ => negb (m =? 0)%Z
  | JStr s => negb (s =? "")
  | JList l => match l with [] => false | _ => true end
  | JDict d => match d with [] => false | _ => true end
  end.

(** [x.get(k, default)]: only a dict has [get]. *)
Definition json_get (x : json) (k : string) (default : json) : M json :=
  match x with
  | JDict d =>
      match assoc k d with
      | Some v => ret v
      | None => ret default
      end
  | _ =>
      raise AttributeError
        ("'" ++ type_name x ++ "' object has no attribute 'get'")
  end.

(** [x[k]] for a string [k] *)
Definition json_getitem (x : json) (k : string) : M json :=
  match x with
  | JDict d =>
      match assoc k d with
      | Some v => ret v
      | None => raise KeyError (quoted k)
      end
  | JList _ =>
      raise TypeError "list indices must be integers or slices, not str"
  | JStr _ => raise TypeError "string indices must be integers, not 'str'"
  | _ => raise TypeError ("'" ++ type_name x ++ "' object is not subscriptable")
  end.

(** [k in x] for a string [k] *)
Definition json_contains (k : string) (x : json) : M bool :=
  match x with
  | JDict d => ret (match assoc k d with Some _ => true | None => false end)
  | JList l =>
      ret (existsb (fun y => match y with JStr s => s =? k | _ => false end) l)
  | JStr s => ret (is_substring k s)
  | _ =>
      raise TypeError
        ("argument of type '" ++ type_name x ++ "' is not iterable")
  end.

(** What [for a in x] goes through. *)
Definition json_iter (x : json) : M (list json) :=
  match x with
  | JList l => ret l
  | JDict d => ret (map (fun kv => JStr (fst kv)) d)
  | JStr s => ret (chars s)
  | _ => raise TypeError ("'" ++ type_name x ++ "' object is not iterable")
  end.

(** [for a in l: body a] *)
Fixpoint for_each {A} (l : list A) (body : A -> M unit) : M unit :=
  match l with
  | [] => ret tt
  | a :: l' => body a ;; for_each l' body
  end.

(** [meshtastic.BROADCAST_NUM] *)
Definition BROADCAST_NUM : Z := 4294967295.

(** ** Library calls *)

Section Library.

Variable E : Env.

(** [f"{x}"] *)
Definition format_json (x : json) : string :=
  match x with
  | JStr s => s
  | _ => py_str E x
  end.

(** [meshtastic.serial_interface.SerialInterface(devPath)] and
    [meshtastic.tcp_interface.TCPInterface(hostname=...)]: the constructor
    opens the device or the connection. *)
Definition open (i : interface) : M interface :=
  call (EvOpen i) (fun h => open_interface E h i) ;;
  ret i.

(** [time.sleep(secs)] *)
Definition time_sleep (secs : Z) : M unit :=
  call (EvSleep secs) (fun h => sleep E h secs).

(** [requests.get(url, headers=headers)] *)
Definition get (url : string) (headers : list (string * string))
    : M response :=
  call (EvGet url headers) (fun h => requests_get E h url headers).

(** [response.json()] *)
Definition json_of (r : response) : M json :=
  fun st =>
    match json_body r with
    | Returns j => (Ret j, st)
    | Raises e => (Raise e, st)
    end.

(** [response.raise_for_status()] *)
Definition raise_for_status (r : response) : M unit :=
  if (400 <=? status_code r)%Z && (status_code r <? 500)%Z then
    raise HTTPError
      (str_int (status_code r) ++ " Client Error: " ++ reason r
       ++ " for url: " ++ url r)
  else if (500 <=? status_code r)%Z && (status_code r <? 600)%Z then
    raise HTTPError
      (str_int (status_code r) ++ " Server Error: " ++ reason r
       ++ " for url: " ++ url r)
  else ret tt.

(** [interface.sendText(text, destinationId)]; [None] when the call leaves
    the destination to the library's default. *)
Definition interface_sendText (i : interface) (text : string)
    (destinationId : option Z) : M unit :=
  call (EvSendText i text destinationId)
       (fun h => sendText E h i text destinationId).

(** [interface.close()] *)
Definition interface_close (i : interface) : M unit :=
  call (EvClose i) (fun h => close E h i).

End Library.

(** * config_init.py *)

Module config_init.

Section Program.

Variable E : Env.

(** [merge_config(system_config, args)] *)
Definition merge_config (system_config : loc) (args : Namespace) : M loc :=
  (match args_interface_type args with
   | Some v => setitem system_config "interface_type" (VStr v)
   | None => ret tt
   end) ;;
  (match args_port args with
   | Some v => setitem system_config "port" (VStr v)
   | None => ret tt
   end) ;;
  (match args_host args with
   | Some v => setitem system_config "host" (VStr v)
   | None => ret tt
   end) ;;
  (match args_location args with
   | Some v => setitem system_config "location" (VStr v)
   | None => ret tt
   end) ;;
  ret system_config.

(** [config[name]] on a [ConfigParser]: the section proxy, or [KeyError]. *)
Definition config_section (config : sections) (name : string)
    : M (gmap string (reply string)) :=
  match config !! name with
  | Some sec => ret sec
  | None => raise KeyError (quoted name)
  end.

(** [section.get(option, None)] on a section proxy: [None] when the section
    neither has nor inherits the option, else its value after
    interpolation, or the exception of the interpolation. *)
Definition section_get (sec : gmap string (reply string)) (option : string)
    : M value :=
  match sec !! option with
  | Some r => v <- answer r ;; ret (VStr v)
  | None => ret VNone
  end.

(** [config.get(section, option, fallback=None)]: the fallback also when
    the file has no such section. *)
Definition config_get (config : sections) (section option : string)
    : M value :=
  match config !! section with
  | Some sec => section_get sec option
  | None => ret VNone
  end.

(** [initialize_config(config_file)] *)
Definition initialize_config (config_file : option string) : M loc :=
  let config_file :=
    match config_file with
    | None => "config.ini"
    | Some f => f
    end in
  config <- try_except
              (call (EvConfigRead config_file) (fun h => config_read E h config_file))
              is_FileNotFoundError
              (fun _ =>
                 print ("Configuration file " ++ config_file
                        ++ " not found. Using default settings.") ;;
                 ret ∅) ;;
  interface <- config_section config "interface" ;;
  interface_type <- section_get interface "type" ;;
  interface <- config_section config "interface" ;;
  hostname <- section_get interface "hostname" ;;
  interface <- config_section config "interface" ;;
  port <- section_get interface "port" ;;
  location <- config_get config "weather" "location" ;;
  new_dict (<["config" := VConfigParser config]>
            (<["interface_type" := interface_type]>
             (<["hostname" := hostname]>
              (<["port" := port]>
               (<["location" := location]> ∅))))).

(** The body of the [try] of [get_interface]: one attempt. *)
Definition get_interface_attempt (system_config : loc) : M interface :=
  interface_type <- getitem system_config "interface_type" ;;
  if eq_str interface_type "serial" then
    port <- getitem system_config "port" ;;
    if truthy port then
      open E (SerialInterface port)
    else
      ports <- call EvComports (comports E) ;;
      if (length ports =? 1)%nat then
        open E (SerialInterface (VStr (hd "" ports)))
      else if (1 <? length ports)%nat then
        let port_list := String.concat ", " ports in
        raise ValueError
          ("Multiple serial ports detected: " ++ port_list
           ++ ". Specify one with the 'port' argument.")
      else
        raise ValueError "No serial ports detected."
  else
    interface_type <- getitem system_config "interface_type" ;;
    if eq_str interface_type "tcp" then
      hostname <- getitem system_config "hostname" ;;
      if negb (truthy hostname) then
        raise ValueError "Hostname must be specified for TCP interface"
      else
        hostname <- getitem system_config "hostname" ;;
        open E (TCPInterface hostname)
    else
      raise ValueError "Invalid interface type specified in config file".

(** [get_interface(system_config)]: [while True] around the attempt, where
    [None] from the [try] statement means that the handler ran and the loop
    goes round again. *)
Fixpoint get_interface (fuel : nat) (system_config : loc) : M interface :=
  match fuel with
  | O => diverge
  | S fuel =>
      r <- try_except
             (i <- get_interface_attempt system_config ;; ret (Some i))
             is_PermissionError
             (fun e =>
                print ("PermissionError: " ++ exn_str e
                       ++ ". Retrying in 5 seconds...") ;;
                time_sleep E 5 ;;
                ret None) ;;
      match r with
      | Some i => ret i
      | None => get_interface fuel system_config
      end
  end.

End Program.

Section Alerts.

Variable E : Env.

(** [fetch_weather_alerts(location)] *)
Definition fetch_weather_alerts (location : value) : M json :=
  let url := "https://api.weather.gov/alerts/active/area/"
             ++ format_value location in
  let headers :=
    [("User-Agent",
      "MeshtasticWeatherAlertSystem/1.0 (your_email@example.com)")] in
  response <- get E url headers ;;
  if (status_code response =? 200)%Z then
    json_of response
  else
    print ("Failed to fetch weather alerts: "
           ++ str_int (status_code response)) ;;
    ret (JDict []).

(** [broadcast_weather_alerts(interface, alerts)] *)
Definition broadcast_weather_alerts (i : interface) (alerts : json) : M unit :=
  has <- json_contains "features" alerts ;;
  features <- (if has then json_getitem alerts "features" else ret JNone) ;;
  if has && json_truthy features then
    features <- json_getitem alerts "features" ;;
    features <- json_iter features ;;
    for_each features (fun feature =>
      properties <- json_get feature "properties" (JDict []) ;;
      event <- json_get properties "event" (JStr "Unknown Event") ;;
      description <- json_get properties "description"
                       (JStr "No description available") ;;
      let message := "Weather Alert: " ++ format_json E event ++ " - "
                     ++ format_json E description in
      interface_sendText E i message None ;;
      print ("Broadcasting: " ++ message))
  else
    print "No weather alerts to broadcast.".

(** The [while True] of [main]. *)
Fixpoint main_loop (fuel : nat) (system_config : loc) (i : interface)
    : M unit :=
  match fuel with
  | O => diverge
  | S fuel =>
      location <- getitem system_config "location" ;;
      alerts <- fetch_weather_alerts location ;;
      broadcast_weather_alerts i alerts ;;
      time_sleep E 600 ;;
      main_loop fuel system_config i
  end.

(** [init_cli_parser()] *)
Definition init_cli_parser : M Namespace :=
  call EvParseArgs (parse_args E).

(** [main()] *)
Definition main (fuel : nat) : M unit :=
  args <- init_cli_parser ;;
  config <- initialize_config E (args_config args) ;;
  system_config <- merge_config config args ;;
  i <- get_interface E fuel system_config ;;
  main_loop fuel system_config i.

End Alerts.

End config_init.

(** * message_processing.py *)

Module message_processing.

Section Program.

Variable E : Env.

(** [WEATHER_API_URL.format(STATE=state)] *)
Definition WEATHER_API_URL (state : string) : string :=
  "https://api.weather.gov/alerts/active/area/" ++ state.

(** [fetch_weather_alerts(state)] *)
Definition fetch_weather_alerts (state : string) : M json :=
  let url := WEATHER_API_URL state in
  response <- get E url [] ;;
  if (status_code response =? 200)%Z then
    body <- json_of response ;;
    json_get body "features" (JList [])
  else
    logging ERROR ("Failed to fetch weather alerts: "
                   ++ str_int (status_code response) ++ " " ++ text response) ;;
    ret (JList []).

(** [format_alert_message(alert)] *)
Definition format_alert_message (alert : json) : M string :=
  properties <- json_get alert "properties" (JDict []) ;;
  headline <- json_get properties "headline" (JStr "No headline") ;;
  description <- json_get properties "description" (JStr "No description") ;;
  instruction <- json_get properties "instruction" (JStr "No instruction") ;;
  let message :=
    "🚨Weather Alert🚨" ++ nl ++ "Headline: " ++ format_json E headline
    ++ nl ++ "Description: " ++ format_json E description
    ++ nl ++ "Instruction: " ++ format_json E instruction in
  ret message.

(** [utils.send_message(message, destination, interface)]: the module is
    imported but is not part of the repository, so the call is left to the
    environment. *)
Definition utils_send_message (message : string) (destination : Z)
    (i : interface) : M unit :=
  call (EvSendMessage message destination i)
       (fun h => send_message E h message destination i).

(** [broadcast_weather_alerts(interface, state)] *)
Definition broadcast_weather_alerts (i : interface) (state : string)
    : M unit :=
  alerts <- fetch_weather_alerts state ;;
  alerts <- json_iter alerts ;;
  for_each alerts (fun alert =>
    message <- format_alert_message alert ;;
    utils_send_message message BROADCAST_NUM i).

(** One round of the [while True] of [main]: the [try] statement. *)
Definition main_cycle (i : interface) (state : string) (interval : Z)
    : M unit :=
  try_except
    (broadcast_weather_alerts i state ;;
     time_sleep E interval)
    is_Exception
    (fun e => logging ERROR ("Error in main loop: " ++ exn_str e)).

(** [main(interface, state, interval)] *)
Fixpoint main (fuel : nat) (i : interface) (state : string) (interval : Z)
    : M unit :=
  match fuel with
  | O => diverge
  | S fuel =>
      main_cycle i state interval ;;
      main fuel i state interval
  end.

End Program.

End message_processing.

(** * server.py *)

Module server.

Section Program.

Variable E : Env.

(** [fetch_weather_alerts(state)] *)
Definition fetch_weather_alerts (state : value) : M json :=
  let url := "https://api.weather.gov/alerts/active/area/"
             ++ format_value state in
  response <- get E url [] ;;
  raise_for_status response ;;
  body <- json_of response ;;
  json_get body "features" (JList []).

(** [broadcast_alerts(alerts, interface)] *)
Definition broadcast_alerts (alerts : json) (i : interface) : M unit :=
  alerts <- json_iter alerts ;;
  for_each alerts (fun alert =>
    properties <- json_getitem alert "properties" ;;
    event <- json_getitem properties "event" ;;
    headline <- json_getitem properties "headline" ;;
    description <- json_getitem properties "description" ;;
    let message :=
      "⚠️ Weather Alert: " ++ format_json E event ++ nl
      ++ format_json E headline ++ nl ++ format_json E description in
    logging INFO ("Broadcasting message: " ++ message) ;;
    interface_sendText E i message (Some BROADCAST_NUM)).

(** The [while True] inside the [try] of [main]. *)
Fixpoint main_loop (fuel : nat) (i : interface) (state : value) : M unit :=
  match fuel with
  | O => diverge
  | S fuel =>
      alerts <- fetch_weather_alerts state ;;
      (if json_truthy alerts then
         broadcast_alerts alerts i
       else
         logging INFO "No active alerts at the moment.") ;;
      time_sleep E 600 ;;
      main_loop fuel i state
  end.

(** The [try] statement of [main]: the loop and its two handlers. *)
Definition main_try (fuel : nat) (i : interface) (state : value) : M unit :=
  try_except2
    (main_loop fuel i state)
    is_KeyboardInterrupt
    (fun _ =>
       logging INFO "Shutting down the Weather Alerts system..." ;;
       interface_close E i)
    is_Exception
    (fun e =>
       logging ERROR ("An error occurred: " ++ exn_str e) ;;
       interface_close E i).

(** [main()] *)
Definition main (fuel : nat) : M unit :=
  args <- config_init.init_cli_parser E ;;
  let config_file :=
    match args_config args with
    | Some f => if negb (f =? "") then Some f else None
    | None => None
    end in
  system_config <- config_init.initialize_config E config_file ;;
  config_init.merge_config system_config args ;;
  i <- config_init.get_interface E fuel system_config ;;
  state <- getitem system_config "state" ;;
  interface_type <- getitem system_config "interface_type" ;;
  logging INFO ("Weather Alerts system running for state: "
                ++ format_value state ++ " on " ++ format_value interface_type
                ++ " interface...") ;;
  main_try fuel i state.

End Program.

End server.

(** * Reasoning about runs *)

(** From here on [++] joins lists and [+:+] joins strings. *)
Open Scope list_scope.

(** [runs P Q m]: from every state, [m] adds only events that satisfy [P]
    to the trace, and ends in an outcome that satisfies [Q]. *)
Definition runs {A} (P : event -> Prop) (Q : outcome A -> Prop) (m : M A)
    : Prop :=
  forall st, exists evs,
    trace (m st).2 = trace st ++ evs /\ Forall P evs /\ Q (m st).1.

Definition is_get (ev : event) : bool :=
  match ev with EvGet _ _ => true | _ => false end.

Definition is_close (ev : event) : bool :=
  match ev with EvClose _ => true | _ => false end.

Definition is_sleep (ev : event) : bool :=
  match ev with EvSleep _ => true | _ => false end.

Definition is_open (ev : event) : bool :=
  match ev with EvOpen _ => true | _ => false end.

(** How many events of a trace satisfy [p]. *)
Definition count (p : event -> bool) (t : list event) : nat :=
  length (filter (fun ev => p ev = true) t).

(** [s] occurs in [t]. *)
Definition occurs_in (s t : string) : Prop :=
  exists pre post, t = pre +:+ s +:+ post.

Section Logic.

Context {A B : Type}.
Implicit Types (P : event -> Prop).

Lemma runs_ret P (Q : outcome A -> Prop) (a : A) :
  Q (Ret a) -> runs P Q (ret a).
Proof.
  intros HQ st. exists []. simpl. rewrite app_nil_r. auto.
Qed.

Lemma runs_raise P (Q : outcome A -> Prop) c msg :
  Q (Raise (Exn c msg)) -> runs P Q (raise c msg).
Proof.
  intros HQ st. exists []. simpl. rewrite app_nil_r. auto.
Qed.

Lemma runs_diverge P (Q : outcome A -> Prop) :
  Q Diverge -> runs P Q diverge.
Proof.
  intros HQ st. exists []. simpl. rewrite app_nil_r. auto.
Qed.

Lemma runs_bind P (Q1 : outcome A -> Prop) (Q : outcome B -> Prop)
    (m : M A) (k : A -> M B) :
  runs P Q1 m ->
  (forall a, Q1 (Ret a) -> runs P Q (k a)) ->
  (forall e, Q1 (Raise e) -> Q (Raise e)) ->
  (Q1 Diverge -> Q Diverge) ->
  runs P Q (bind m k).
Proof.
  intros Hm Hk He Hd st. unfold bind.
  destruct (Hm st) as (evs & Ht & HP & HQ).
  destruct (m st) as [[a|e|] st1]; simpl in *.
  - destruct (Hk a HQ st1) as (evs' & Ht' & HP' & HQ').
    exists (evs ++ evs'). rewrite Ht', Ht, app_assoc.
    split; [done|]. split; [by apply Forall_app|done].
  - exists evs. auto.
  - exists evs. auto.
Qed.

Lemma runs_call P (Q : outcome A -> Prop) ev (r : list event -> reply A) :
  P ev ->
  (forall h a, r h = Returns a -> Q (Ret a)) ->
  (forall h e, r h = Raises e -> Q (Raise e)) ->
  runs P Q (call ev r).
Proof.
  intros HP Hr He st. exists [ev]. unfold call.
  destruct (r (trace st)) eqn:Hrep; simpl;
    (split; [done|]); (split; [by constructor|]); eauto.
Qed.

Lemma runs_try_except P (Q1 Q : outcome A -> Prop) (body : M A) catches
    handler :
  runs P Q1 body ->
  (forall a, Q1 (Ret a) -> Q (Ret a)) ->
  (Q1 Diverge -> Q Diverge) ->
  (forall e, Q1 (Raise e) -> catches e = false -> Q (Raise e)) ->
  (forall e, Q1 (Raise e) -> catches e = true -> runs P Q (handler e)) ->
  runs P Q (try_except body catches handler).
Proof.
  intros Hm Hr Hd He Hh st. unfold try_except.
  destruct (Hm st) as (evs & Ht & HP & HQ).
  destruct (body st) as [[a|e|] st1]; simpl in *.
  - exists evs. auto.
  - destruct (catches e) eqn:Hc.
    + destruct (Hh e HQ Hc st1) as (evs' & Ht' & HP' & HQ').
      exists (evs ++ evs'). rewrite Ht', Ht, app_assoc.
      split; [done|]. split; [by apply Forall_app|done].
    + exists evs. simpl. auto.
  - exists evs. auto.
Qed.

Lemma runs_weaken P P' (Q Q' : outcome A -> Prop) (m : M A) :
  runs P Q m ->
  (forall ev, P ev -> P' ev) ->
  (forall r, Q r -> Q' r) ->
  runs P' Q' m.
Proof.
  intros Hm HP HQ st. destruct (Hm st) as (evs & Ht & HPs & HQs).
  exists evs. split; [done|]. split; [|auto].
  eapply Forall_impl; eauto.
Qed.

End Logic.

Lemma runs_print P (Q : outcome unit -> Prop) msg :
  P (EvPrint msg) -> Q (Ret tt) -> runs P Q (print msg).
Proof.
  intros HP HQ st. exists [EvPrint msg]. simpl.
  split; [done|]. split; [by constructor|done].
Qed.

Lemma runs_logging P (Q : outcome unit -> Prop) lvl msg :
  P (EvLog lvl msg) -> Q (Ret tt) -> runs P Q (logging lvl msg).
Proof.
  intros HP HQ st. exists [EvLog lvl msg]. simpl.
  split; [done|]. split; [by constructor|done].
Qed.

Lemma runs_getitem P (Q : outcome value -> Prop) l k :
  (forall v, Q (Ret v)) -> Q (Raise (Exn KeyError (quoted k))) ->
  runs P Q (getitem l k).
Proof.
  intros Hv He st. exists []. unfold getitem.
  destruct (deref l st !! k); simpl; rewrite app_nil_r; auto.
Qed.

Lemma runs_setitem P (Q : outcome unit -> Prop) l k v :
  Q (Ret tt) -> runs P Q (setitem l k v).
Proof.
  intros HQ st. exists []. simpl. rewrite app_nil_r. auto.
Qed.

Lemma runs_new_dict P (Q : outcome loc -> Prop) d :
  (forall l, Q (Ret l)) -> runs P Q (new_dict d).
Proof.
  intros HQ st. exists []. simpl. rewrite app_nil_r. auto.
Qed.

Lemma runs_for_each {A} P (Q : outcome unit -> Prop) (l : list A) body :
  Q (Ret tt) ->
  (forall a, runs P (fun r => r = Ret tt \/ Q r) (body a)) ->
  runs P Q (for_each l body).
Proof.
  intros HQ Hb. induction l as [|a l IH]; simpl.
  - by apply runs_ret.
  - eapply runs_bind; [apply Hb| | |]; simpl.
    + intros _ _. apply IH.
    + intros e [He|He]; [discriminate|done].
    + intros [He|He]; [discriminate|done].
Qed.

Lemma count_app p t1 t2 : count p (t1 ++ t2) = (count p t1 + count p t2)%nat.
Proof. unfold count. by rewrite filter_app, length_app. Qed.

Lemma count_none p t : Forall (fun ev => p ev = false) t -> count p t = 0%nat.
Proof.
  unfold count. induction 1 as [|ev t Hev _ IH]; [done|].
  rewrite filter_cons_False; [done|]. by rewrite Hev.
Qed.

(** * merge_config *)

Lemma deref_insert_eq l d t (h : gmap loc dict) :
  deref l (State t (<[l := d]> h)) = d.
Proof. unfold deref. simpl. by rewrite lookup_insert_eq. Qed.

(** What [if v is not None: d[k] = v] makes of the dict [d]. *)
Definition assign (k : string) (o : option string) (d : dict) : dict :=
  match o with
  | Some v => <[k := VStr v]> d
  | None => d
  end.

Lemma assign_lookup_eq k o (d : dict) :
  assign k o d !! k =
    match o with
    | Some v => Some (VStr v)
    | None => d !! k
    end.
Proof. destruct o; simpl; [by rewrite lookup_insert_eq|done]. Qed.

Lemma assign_lookup_ne k k' o (d : dict) :
  k <> k' -> assign k o d !! k' = d !! k'.
Proof. intros Hk. destruct o; simpl; [by rewrite lookup_insert_ne|done]. Qed.

(** An optional assignment touches the dict [l] and nothing else. *)
Lemma assign_if_given (l : loc) (k : string) (o : option string) (st : state) :
  exists st',
    (match o with
     | Some v => setitem l k (VStr v)
     | None => ret tt
     end) st = (Ret tt, st')
    /\ trace st' = trace st
    /\ (forall l', l' <> l -> heap st' !! l' = heap st !! l')
    /\ deref l st' = assign k o (deref l st).
Proof.
  destruct o as [v|]; simpl.
  - eexists. split; [reflexivity|]. simpl. split; [done|].
    split; [intros l' Hl'; by rewrite lookup_insert_ne|].
    by rewrite deref_insert_eq.
  - exists st. auto.
Qed.

(** [merge_config] in closed form. *)
Lemma merge_config_run (system_config : loc) (args : Namespace) (st : state) :
  exists st',
    config_init.merge_config system_config args st = (Ret system_config, st')
    /\ trace st' = trace st
    /\ (forall l, l <> system_config -> heap st' !! l = heap st !! l)
    /\ deref system_config st' =
         assign "location" (args_location args)
           (assign "host" (args_host args)
              (assign "port" (args_port args)
                 (assign "interface_type" (args_interface_type args)
                    (deref system_config st)))).
Proof.
  unfold config_init.merge_config, bind.
  destruct (assign_if_given system_config "interface_type"
              (args_interface_type args) st)
    as (st1 & -> & Ht1 & Hh1 & Hd1).
  destruct (assign_if_given system_config "port" (args_port args) st1)
    as (st2 & -> & Ht2 & Hh2 & Hd2).
  destruct (assign_if_given system_config "host" (args_host args) st2)
    as (st3 & -> & Ht3 & Hh3 & Hd3).
  destruct (assign_if_given system_config "location" (args_location args) st3)
    as (st4 & -> & Ht4 & Hh4 & Hd4).
  exists st4. split; [reflexivity|].
  split; [congruence|].
  split; [intros l Hl; rewrite Hh4, Hh3, Hh2, Hh1; done|].
  by rewrite Hd4, Hd3, Hd2, Hd1.
Qed.

(** C10: [merge_config] returns the reference it was given, adds nothing to
    the trace and leaves every other dict alone; in the dict itself each of
    [interface_type], [port], [host] and [location] holds the CLI value when
    that argument is not [None] and its prior value otherwise, and every
    other key keeps its prior value. *)
Theorem merge_config_frame (system_config : loc) (args : Namespace)
    (st : state) :
  exists st',
    config_init.merge_config system_config args st = (Ret system_config, st')
    /\ trace st' = trace st
    /\ (forall l, l <> system_config -> heap st' !! l = heap st !! l)
    /\ (forall k,
          k <> "interface_type" -> k <> "port" -> k <> "host" ->
          k <> "location" ->
          deref system_config st' !! k = deref system_config st !! k)
    /\ deref system_config st' !! "interface_type" =
         match args_interface_type args with
         | Some v => Some (VStr v)
         | None => deref system_config st !! "interface_type"
         end
    /\ deref system_config st' !! "port" =
         match args_port args with
         | Some v => Some (VStr v)
         | None => deref system_config st !! "port"
         end
    /\ deref system_config st' !! "host" =
         match args_host args with
         | Some v => Some (VStr v)
         | None => deref system_config st !! "host"
         end
    /\ deref system_config st' !! "location" =
         match args_location args with
         | Some v => Some (VStr v)
         | None => deref system_config st !! "location"
         end.
Proof.
  destruct (merge_config_run system_config args st)
    as (st' & Hrun & Ht & Hh & Hd).
  exists st'. rewrite Hd.
  repeat split; try done.
  - intros k H1 H2 H3 H4. by rewrite !assign_lookup_ne by done.
  - rewrite !assign_lookup_ne by done. apply assign_lookup_eq.
  - rewrite !assign_lookup_ne by done. rewrite assign_lookup_eq.
    destruct (args_port args); [done|]. by rewrite assign_lookup_ne.
  - rewrite !assign_lookup_ne by done. rewrite assign_lookup_eq.
    destruct (args_host args); [done|]. by rewrite !assign_lookup_ne by done.
  - rewrite assign_lookup_eq.
    destruct (args_location args); [done|].
    by rewrite !assign_lookup_ne by done.
Qed.

(** * The heap during transport acquisition *)

(** [keeps_heap m]: [m] leaves every dict as it found it. *)
Definition keeps_heap {A} (m : M A) : Prop :=
  forall st, heap (m st).2 = heap st.

Lemma keeps_heap_ret {A} (a : A) : keeps_heap (ret a).
Proof. done. Qed.

Lemma keeps_heap_raise {A} c msg : keeps_heap (@raise A c msg).
Proof. done. Qed.

Lemma keeps_heap_diverge {A} : keeps_heap (@diverge A).
Proof. done. Qed.

Lemma keeps_heap_bind {A B} (m : M A) (k : A -> M B) :
  keeps_heap m -> (forall a, keeps_heap (k a)) -> keeps_heap (bind m k).
Proof.
  intros Hm Hk st. unfold bind. specialize (Hm st).
  destruct (m st) as [[a|e|] st1]; simpl in *; [|done..].
  by rewrite Hk.
Qed.

Lemma keeps_heap_call {A} ev (r : list event -> reply A) :
  keeps_heap (call ev r).
Proof. intros st. unfold call. by destruct (r (trace st)). Qed.

Lemma keeps_heap_print msg : keeps_heap (print msg).
Proof. done. Qed.

Lemma keeps_heap_logging lvl msg : keeps_heap (logging lvl msg).
Proof. done. Qed.

Lemma keeps_heap_getitem l k : keeps_heap (getitem l k).
Proof. intros st. unfold getitem. by destruct (deref l st !! k). Qed.

Lemma keeps_heap_try_except {A} (body : M A) catches handler :
  keeps_heap body -> (forall e, keeps_heap (handler e)) ->
  keeps_heap (try_except body catches handler).
Proof.
  intros Hb Hh st. unfold try_except. specialize (Hb st).
  destruct (body st) as [[a|e|] st1]; simpl in *; [done| |done].
  destruct (catches e); [|done]. by rewrite Hh.
Qed.

Create HintDb heap_db.
#[export] Hint Resolve keeps_heap_ret keeps_heap_raise keeps_heap_diverge
  keeps_heap_call keeps_heap_print keeps_heap_logging keeps_heap_getitem
  : heap_db.

Ltac keeps_heap_step :=
  first
    [ apply keeps_heap_bind; [|intros ?]
    | apply keeps_heap_try_except; [|intros ?]
    | solve [auto with heap_db]
    | match goal with |- keeps_heap (if ?b then _ else _) => destruct b end
    | match goal with |- keeps_heap (match ?o with _ => _ end) => destruct o end ].

Lemma keeps_heap_open E i : keeps_heap (open E i).
Proof. unfold open. repeat keeps_heap_step. Qed.

Lemma keeps_heap_time_sleep E secs : keeps_heap (time_sleep E secs).
Proof. unfold time_sleep. repeat keeps_heap_step. Qed.

#[export] Hint Resolve keeps_heap_open keeps_heap_time_sleep : heap_db.

Lemma keeps_heap_get_interface_attempt E cfg :
  keeps_heap (config_init.get_interface_attempt E cfg).
Proof. unfold config_init.get_interface_attempt. repeat keeps_heap_step. Qed.

Lemma keeps_heap_get_interface E fuel cfg :
  keeps_heap (config_init.get_interface E fuel cfg).
Proof.
  induction fuel as [|fuel IH]; simpl; [auto with heap_db|].
  apply keeps_heap_bind.
  - apply keeps_heap_try_except.
    + apply keeps_heap_bind; [apply keeps_heap_get_interface_attempt|].
      intros i. auto with heap_db.
    + intros e. repeat keeps_heap_step.
  - intros [i|]; [auto with heap_db|apply IH].
Qed.

(** * The events of a run *)

(** How a run may end: returning is always allowed, raising [e] when
    [X e], running out of fuel when [d] is [true]. *)
Definition ends {A} (d : bool) (X : exn -> Prop) (r : outcome A) : Prop :=
  match r with
  | Ret _ => True
  | Raise e => X e
  | Diverge => d = true
  end.

(** [only d X P m]: [m] adds only events that satisfy [P] to the trace and
    ends as [d] and [X] allow. *)
Definition only {A} (d : bool) (X : exn -> Prop) (P : event -> Prop)
    (m : M A) : Prop :=
  runs P (ends d X) m.

Definition any_exn (e : exn) : Prop := True.

Section Only.

Variable d : bool.
Variable X : exn -> Prop.
Variable P : event -> Prop.

Lemma only_ret {A} (a : A) : only d X P (ret a).
Proof. by apply runs_ret. Qed.

Lemma only_raise {A} c msg : X (Exn c msg) -> only d X P (@raise A c msg).
Proof. intros HX. by apply runs_raise. Qed.

Lemma only_bind {A B} (m : M A) (k : A -> M B) :
  only d X P m -> (forall a, only d X P (k a)) -> only d X P (bind m k).
Proof.
  intros Hm Hk. unfold only in *.
  eapply runs_bind; [exact Hm|..]; simpl; auto.
Qed.

Lemma only_call {A} ev (r : list event -> reply A) :
  P ev -> (forall h e, r h = Raises e -> X e) -> only d X P (call ev r).
Proof. intros HP HX. apply runs_call; simpl; eauto. Qed.

Lemma only_print msg : P (EvPrint msg) -> only d X P (print msg).
Proof. intros HP. by apply runs_print. Qed.

Lemma only_logging lvl msg : P (EvLog lvl msg) -> only d X P (logging lvl msg).
Proof. intros HP. by apply runs_logging. Qed.

Lemma only_getitem l k :
  X (Exn KeyError (quoted k)) -> only d X P (getitem l k).
Proof. intros HX. by apply runs_getitem. Qed.

Lemma only_setitem l k v : only d X P (setitem l k v).
Proof. by apply runs_setitem. Qed.

Lemma only_new_dict dict0 : only d X P (new_dict dict0).
Proof. by apply runs_new_dict. Qed.

Lemma only_try_except {A} (body : M A) catches handler :
  only d X P body -> (forall e, only d X P (handler e)) ->
  only d X P (try_except body catches handler).
Proof.
  intros Hb Hh. unfold only in *.
  eapply runs_try_except; [exact Hb|..]; simpl; auto.
Qed.

Lemma only_for_each {A} (l : list A) body :
  (forall a, only d X P (body a)) -> only d X P (for_each l body).
Proof.
  intros Hb. apply runs_for_each; [done|].
  intros a. eapply runs_weaken; [apply Hb|done|auto].
Qed.

(** The exceptions that the operations on JSON values raise. *)
Hypothesis X_KeyError : forall msg, X (Exn KeyError msg).
Hypothesis X_AttributeError : forall msg, X (Exn AttributeError msg).
Hypothesis X_TypeError : forall msg, X (Exn TypeError msg).

Lemma only_json_get x k dflt : only d X P (json_get x k dflt).
Proof.
  destruct x; simpl; try (by apply only_raise).
  destruct (assoc k d0); apply only_ret.
Qed.

Lemma only_json_getitem x k : only d X P (json_getitem x k).
Proof.
  destruct x; simpl; try (by apply only_raise).
  destruct (assoc k d0); [apply only_ret|by apply only_raise].
Qed.

Lemma only_json_iter x : only d X P (json_iter x).
Proof. destruct x; simpl; try (by apply only_raise); apply only_ret. Qed.

Lemma only_json_contains k x : only d X P (json_contains k x).
Proof. destruct x; simpl; try (by apply only_raise); apply only_ret. Qed.

End Only.

Lemma only_diverge {A} X P : only true X P (@diverge A).
Proof. by apply runs_diverge. Qed.

Lemma only_json_of d (X : exn -> Prop) P r :
  (forall e, json_body r = Raises e -> X e) -> only d X P (json_of r).
Proof.
  intros HX st. exists []. unfold json_of.
  destruct (json_body r) eqn:Hb; simpl; rewrite app_nil_r; auto.
Qed.

Lemma only_answer {A} d (X : exn -> Prop) P (r : reply A) :
  (forall e, r = Raises e -> X e) -> only d X P (answer r).
Proof.
  intros HX st. exists []. unfold answer.
  destruct r; simpl; rewrite app_nil_r; auto.
Qed.

Lemma only_raise_for_status d (X : exn -> Prop) P r :
  (forall msg, X (Exn HTTPError msg)) -> only d X P (raise_for_status r).
Proof.
  intros HX. unfold raise_for_status.
  destruct (_ && _); [by apply only_raise|].
  destruct (_ && _); [by apply only_raise|apply only_ret].
Qed.

Ltac only_step :=
  first
    [ apply only_bind; [|intros ?]
    | apply only_try_except; [|intros ?]
    | apply only_for_each; intros ?
    | apply only_ret
    | apply only_raise; simpl; try done
    | apply only_diverge
    | apply only_getitem; simpl; try done
    | apply only_setitem
    | apply only_new_dict
    | apply only_json_get; simpl; try done
    | apply only_json_getitem; simpl; try done
    | apply only_json_iter; simpl; try done
    | apply only_json_contains; simpl; try done
    | apply only_json_of; simpl; try done
    | apply only_answer; simpl; try done
    | apply only_raise_for_status; simpl; try done
    | apply only_call; simpl; try done
    | apply only_print; simpl; try done
    | apply only_logging; simpl; try done
    | match goal with
      | |- only _ _ _ (if ?b then _ else _) => destruct b
      end
    | match goal with
      | |- only _ _ _ (match ?o with _ => _ end) => destruct o
      end ].

(** The calls made before the transport is open. *)
Definition startup_event (ev : event) : Prop :=
  match ev with
  | EvParseArgs | EvConfigRead _ | EvComports | EvOpen _ | EvPrint _ => True
  | EvSleep secs => secs = 5%Z
  | _ => False
  end.

Lemma only_init_cli_parser E : only true any_exn startup_event (config_init.init_cli_parser E).
Proof. unfold config_init.init_cli_parser. repeat only_step. Qed.

Lemma only_initialize_config E config_file :
  only true any_exn startup_event (config_init.initialize_config E config_file).
Proof.
  unfold config_init.initialize_config, config_init.config_section,
    config_init.config_get, config_init.section_get.
  repeat (only_step; try (intros; exact I)).
Qed.

Lemma only_merge_config d X P cfg args :
  only d X P (config_init.merge_config cfg args).
Proof. unfold config_init.merge_config. repeat only_step. Qed.

Lemma only_get_interface_attempt E cfg :
  only true any_exn startup_event (config_init.get_interface_attempt E cfg).
Proof.
  unfold config_init.get_interface_attempt, open. repeat only_step.
Qed.

Lemma only_get_interface E fuel cfg :
  only true any_exn startup_event (config_init.get_interface E fuel cfg).
Proof.
  induction fuel as [|fuel IH]; simpl; [apply only_diverge|].
  apply only_bind.
  - apply only_try_except.
    + apply only_bind; [apply only_get_interface_attempt|].
      intros i. apply only_ret.
    + intros e. unfold time_sleep. repeat only_step.
  - intros [i|]; [apply only_ret|apply IH].
Qed.

(** * The keys of the system configuration *)

(** The dict [initialize_config] builds from the parser and the four
    values it got from it. *)
Definition initial_dict (config : sections)
    (interface_type hostname port location : value) : dict :=
  <["config" := VConfigParser config]>
    (<["interface_type" := interface_type]>
       (<["hostname" := hostname]>
          (<["port" := port]>
             (<["location" := location]> ∅)))).

(** What [section.get(option, None)] answers. *)
Definition option_value (sec : gmap string (reply string)) (option : string)
    : reply value :=
  match sec !! option with
  | Some (Returns v) => Returns (VStr v)
  | Some (Raises e) => Raises e
  | None => Returns VNone
  end.

(** What [config.get('weather', 'location', fallback=None)] answers. *)
Definition location_value (config : sections) : reply value :=
  match config !! "weather" with
  | Some weather => option_value weather "location"
  | None => Returns VNone
  end.

Lemma section_get_run sec option st :
  config_init.section_get sec option st = answer (option_value sec option) st.
Proof.
  unfold config_init.section_get, option_value, bind, answer.
  by destruct (sec !! option) as [[v|e]|].
Qed.

Lemma config_get_location config st :
  config_init.config_get config "weather" "location" st
  = answer (location_value config) st.
Proof.
  unfold config_init.config_get, location_value.
  destruct (config !! "weather"); [apply section_get_run|done].
Qed.

(** [initialize_config] once the file is read and has an [interface]
    section: the four values are fetched in the order of the source, and
    the first exception among them leaves the function. *)
Lemma initialize_config_fetches E config_file st config interface :
  config_read E (trace st)
    (match config_file with Some f => f | None => "config.ini" end)
    = Returns config ->
  config !! "interface" = Some interface ->
  config_init.initialize_config E config_file st =
    let st1 :=
      emit (EvConfigRead
              (match config_file with Some f => f | None => "config.ini" end))
        st in
    match option_value interface "type" with
    | Raises e => (Raise e, st1)
    | Returns interface_type =>
        match option_value interface "hostname" with
        | Raises e => (Raise e, st1)
        | Returns hostname =>
            match option_value interface "port" with
            | Raises e => (Raise e, st1)
            | Returns port =>
                match location_value config with
                | Raises e => (Raise e, st1)
                | Returns location =>
                    new_dict
                      (initial_dict config interface_type hostname port
                         location) st1
                end
            end
        end
    end.
Proof.
  intros Hread Hsec.
  unfold config_init.initialize_config, bind, try_except, call.
  rewrite Hread. simpl. unfold config_init.config_section.
  rewrite Hsec. simpl. rewrite !section_get_run.
  unfold answer at 1. destruct (option_value interface "type"); [|done].
  rewrite section_get_run.
  unfold answer at 1. destruct (option_value interface "hostname"); [|done].
  rewrite section_get_run.
  unfold answer at 1. destruct (option_value interface "port"); [|done].
  rewrite config_get_location.
  unfold answer. by destruct (location_value config).
Qed.

Lemma new_dict_run d st :
  exists l, new_dict d st = (Ret l, State (trace st) (<[l := d]> (heap st))).
Proof. eexists. reflexivity. Qed.

(** When [initialize_config] returns, the new dict holds exactly the five
    keys of the [return]. *)
Lemma initialize_config_ret E config_file st l st1 :
  config_init.initialize_config E config_file st = (Ret l, st1) ->
  exists config interface_type hostname port location,
    deref l st1 = initial_dict config interface_type hostname port location.
Proof.
  set (f := match config_file with Some f => f | None => "config.ini" end).
  destruct (config_read E (trace st) f) as [config|e] eqn:Hread.
  - destruct (config !! "interface") as [interface|] eqn:Hsec.
    + rewrite (initialize_config_fetches _ _ _ _ _ Hread Hsec). simpl.
      destruct (option_value interface "type") as [it|]; [|discriminate].
      destruct (option_value interface "hostname") as [h|]; [|discriminate].
      destruct (option_value interface "port") as [p|]; [|discriminate].
      destruct (location_value config) as [loc|]; [|discriminate].
      intros [= <- <-]. exists config, it, h, p, loc.
      by rewrite deref_insert_eq.
    + unfold config_init.initialize_config, bind, try_except, call.
      fold f. rewrite Hread. simpl. unfold config_init.config_section.
      rewrite Hsec. discriminate.
  - unfold config_init.initialize_config, bind, try_except, call.
    fold f. rewrite Hread. simpl.
    destruct (is_FileNotFoundError e); simpl; discriminate.
Qed.

Lemma initial_dict_state config interface_type hostname port location :
  initial_dict config interface_type hostname port location !! "state" = None.
Proof. unfold initial_dict. by rewrite !lookup_insert_ne by done. Qed.

(** Lines 36 to 41 of [server.main]: everything up to the open transport. *)
Definition server_startup (E : Env) (fuel : nat) : M (loc * interface) :=
  args <- config_init.init_cli_parser E ;;
  let config_file :=
    match args_config args with
    | Some f => if negb (f =? "") then Some f else None
    | None => None
    end in
  system_config <- config_init.initialize_config E config_file ;;
  config_init.merge_config system_config args ;;
  i <- config_init.get_interface E fuel system_config ;;
  ret (system_config, i).

Lemma only_server_startup E fuel : only true any_exn startup_event (server_startup E fuel).
Proof.
  unfold server_startup.
  apply only_bind; [apply only_init_cli_parser|intros args].
  apply only_bind; [apply only_initialize_config|intros cfg].
  apply only_bind; [apply only_merge_config|intros _].
  apply only_bind; [apply only_get_interface|intros i].
  apply only_ret.
Qed.

(** After the startup the dict has no key [state]. *)
Lemma merged_state_key args config interface_type hostname port location :
  assign "location" (args_location args)
    (assign "host" (args_host args)
       (assign "port" (args_port args)
          (assign "interface_type" (args_interface_type args)
             (initial_dict config interface_type hostname port location))))
  !! "state" = None.
Proof.
  rewrite !assign_lookup_ne by done. apply initial_dict_state.
Qed.

(** [server.main] is its startup followed by a failing lookup. *)
Lemma server_main_startup E fuel st :
  server.main E fuel st =
    match server_startup E fuel st with
    | (Ret _, st') => (Raise (Exn KeyError "'state'"), st')
    | (Raise e, st') => (Raise e, st')
    | (Diverge, st') => (Diverge, st')
    end.
Proof.
  unfold server.main, server_startup, bind.
  destruct (config_init.init_cli_parser E st) as [[args|e|] st1]; [|done..].
  set (f := match args_config args with
            | Some f => if negb (f =? "") then Some f else None
            | None => None
            end).
  destruct (config_init.initialize_config E f st1) as [[cfg|e|] st2] eqn:Hinit;
    [|done..].
  destruct (initialize_config_ret _ _ _ _ _ Hinit)
    as (config & it & h & p & loc & Hd2).
  destruct (merge_config_run cfg args st2) as (st3 & -> & _ & _ & Hd3).
  pose proof (keeps_heap_get_interface E fuel cfg st3) as Hheap.
  destruct (config_init.get_interface E fuel cfg st3) as [[i|e|] st4];
    simpl in *; [|done..].
  unfold getitem.
  assert (deref cfg st4 !! "state" = None) as ->; [|done].
  unfold deref in *. rewrite Hheap, Hd3, Hd2. apply merged_state_key.
Qed.

(** C9: whatever the file, the CLI and the environment, the dict that
    [initialize_config] and then [merge_config] produce holds the keys
    [interface_type], [hostname], [port] and [location], holds [host]
    exactly when it was given on the CLI, and never holds [state]; so when
    the startup of [server.main] gets as far as an open interface, the
    lookup of [system_config['state']] raises [KeyError] on the spot, and in
    no run does [server.main] return normally or make any call other than
    those of the startup (no request to the feed, no send, no close). *)
Theorem server_main_state_KeyError (E : Env) :
  (forall config_file args st l st1 l' st2,
     config_init.initialize_config E config_file st = (Ret l, st1) ->
     config_init.merge_config l args st1 = (Ret l', st2) ->
     l' = l
     /\ is_Some (deref l st2 !! "interface_type")
     /\ is_Some (deref l st2 !! "hostname")
     /\ is_Some (deref l st2 !! "port")
     /\ is_Some (deref l st2 !! "location")
     /\ (is_Some (deref l st2 !! "host") <-> is_Some (args_host args))
     /\ deref l st2 !! "state" = None)
  /\ (forall fuel st args st1 cfg st2 cfg' st3 i st4,
        config_init.init_cli_parser E st = (Ret args, st1) ->
        config_init.initialize_config E
          (match args_config args with
           | Some f => if negb (f =? "") then Some f else None
           | None => None
           end) st1 = (Ret cfg, st2) ->
        config_init.merge_config cfg args st2 = (Ret cfg', st3) ->
        config_init.get_interface E fuel cfg st3 = (Ret i, st4) ->
        server.main E fuel st = (Raise (Exn KeyError "'state'"), st4))
  /\ (forall fuel st,
        exists evs,
          trace (server.main E fuel st).2 = trace st ++ evs
          /\ Forall startup_event evs
          /\ (server.main E fuel st).1 <> Ret tt).
Proof.
  split; [|split].
  - intros config_file args st l st1 l' st2 Hinit Hmerge.
    destruct (initialize_config_ret _ _ _ _ _ Hinit)
      as (config & it & h & p & loc & Hd1).
    destruct (merge_config_run l args st1) as (st2' & Hrun & _ & _ & Hd2).
    rewrite Hrun in Hmerge. injection Hmerge as <- <-.
    rewrite Hd2, Hd1. split; [done|].
    assert (forall k o (d : dict),
              is_Some (d !! k) -> forall k', is_Some (assign k' o d !! k)) as Hkeep.
    { intros k o d Hk k'. destruct o as [v|]; simpl; [|done].
      destruct (decide (k' = k)) as [->|Hne];
        [rewrite lookup_insert_eq|rewrite lookup_insert_ne by done]; eauto. }
    repeat split.
    + do 4 apply Hkeep. unfold initial_dict.
      rewrite lookup_insert_ne, lookup_insert_eq by done. eauto.
    + do 4 apply Hkeep. unfold initial_dict.
      rewrite !lookup_insert_ne, lookup_insert_eq by done. eauto.
    + do 4 apply Hkeep. unfold initial_dict.
      rewrite !lookup_insert_ne, lookup_insert_eq by done. eauto.
    + do 4 apply Hkeep. unfold initial_dict.
      rewrite !lookup_insert_ne, lookup_insert_eq by done. eauto.
    + rewrite assign_lookup_ne, assign_lookup_eq by done.
      destruct (args_host args); [eauto|].
      rewrite !assign_lookup_ne by done. unfold initial_dict.
      rewrite !lookup_insert_ne by done. rewrite lookup_empty.
      intros [? ?]; discriminate.
    + rewrite assign_lookup_ne, assign_lookup_eq by done.
      destruct (args_host args); [eauto|]. intros [? ?]; discriminate.
    + apply merged_state_key.
  - intros fuel st args st1 cfg st2 cfg' st3 i st4 Hargs Hinit Hmerge Hopen.
    rewrite server_main_startup. unfold server_startup, bind.
    by rewrite Hargs, Hinit, Hmerge, Hopen.
  - intros fuel st. rewrite server_main_startup.
    destruct (only_server_startup E fuel st) as (evs & Ht & HP & _).
    exists evs.
    destruct (server_startup E fuel st) as [[a|e|] st']; simpl in *; done.
Qed.

(** * Concrete runs *)

(** A configuration file that asks for TCP to [file.example]. *)
Definition file_tcp : sections :=
  {[ "interface" :=
       {[ "type" := Returns "tcp"; "hostname" := Returns "file.example" ]} ]}.

(** A configuration file that asks for TCP and names no host. *)
Definition file_tcp_no_host : sections :=
  {[ "interface" := {[ "type" := Returns "tcp" ]} ]}.

(** [--host cli.example --location IL] *)
Definition args_cli_host : Namespace :=
  {| args_config := None;
     args_interface_type := None;
     args_port := None;
     args_host := Some "cli.example";
     args_location := Some "IL" |}.

(** A feed answer with the given status and decoded body. *)
Definition feed_response (status : Z) (body : json) : response :=
  {| status_code := status;
     reason := "";
     url := "";
     text := "";
     json_body := Returns body |}.

(** An environment in which every call succeeds, the file is [file], the
    CLI is [args], the port enumeration gives [ports] and the feed answers
    [r]. *)
Definition quiet_env (file : sections) (args : Namespace)
    (ports : list string) (r : response) : Env :=
  {| parse_args := fun _ => Returns args;
     config_read := fun _ _ => Returns file;
     comports := fun _ => Returns ports;
     open_interface := fun _ _ => Returns tt;
     requests_get := fun _ _ _ => Returns r;
     sendText := fun _ _ _ _ => Returns tt;
     send_message := fun _ _ _ _ => Returns tt;
     close := fun _ _ => Returns tt;
     sleep := fun _ _ => Returns tt;
     py_str := fun _ => "None" |}.

Definition start : state := State [] ∅.

Lemma server_main_state_KeyError_witness :
  exists st',
    server.main
      (quiet_env file_tcp args_cli_host [] (feed_response 200 (JDict [])))
      1 start
    = (Raise (Exn KeyError "'state'"), st').
Proof.
  eexists.
  eapply (proj1 (proj2 (server_main_state_KeyError
            (quiet_env file_tcp args_cli_host [] (feed_response 200 (JDict []))))));
    vm_compute; reflexivity.
Defined.

(** C8 (the code at the failing input): with [--host cli.example] on the CLI
    and [hostname = file.example] in the file, [config_init.main] opens the
    TCP interface to [file.example]; with no [hostname] in the file it stops
    with the [ValueError] for a missing host, although the CLI gave one. *)
Theorem cli_host_not_used :
  take 3 (trace (config_init.main
                   (quiet_env file_tcp args_cli_host []
                      (feed_response 200 (JDict [])))
                   1 start).2)
  = [EvParseArgs; EvConfigRead "config.ini";
     EvOpen (TCPInterface (VStr "file.example"))]
  /\ (let r := config_init.main
                 (quiet_env file_tcp_no_host args_cli_host []
                    (feed_response 200 (JDict [])))
                 1 start in
      r.1 = Raise (Exn ValueError
                     "Hostname must be specified for TCP interface")
      /\ trace r.2 = [EvParseArgs; EvConfigRead "config.ini"]
      /\ deref 0 r.2 !! "host" = Some (VStr "cli.example")).
Proof. vm_compute. auto. Qed.

(** * Strings *)

Lemma append_cons (x : ascii) (a b : string) :
  String x a +:+ b = String x (a +:+ b).
Proof. reflexivity. Qed.

Lemma append_assoc (a b c : string) : (a +:+ b) +:+ c = a +:+ (b +:+ c).
Proof.
  induction a as [|x a IH]; [done|]. by rewrite !append_cons, IH.
Qed.

Lemma append_nil_r (a : string) : a +:+ "" = a.
Proof.
  induction a as [|x a IH]; [done|]. by rewrite append_cons, IH.
Qed.

Lemma occurs_in_refl (s : string) : occurs_in s s.
Proof. exists "", "". change ("" +:+ s +:+ "") with (s +:+ ""). by rewrite append_nil_r. Qed.

Lemma occurs_in_wrap (s t a b : string) :
  occurs_in s t -> occurs_in s (a +:+ t +:+ b).
Proof.
  intros (pre & post & ->). exists (a +:+ pre), (post +:+ b).
  by rewrite !append_assoc.
Qed.

(** Every element of a joined list occurs in the result. *)
Lemma occurs_in_concat (sep dev : string) (l : list string) :
  dev ∈ l -> occurs_in dev (String.concat sep l).
Proof.
  induction l as [|x l IH]; intros Hin; [by apply elem_of_nil in Hin|].
  apply elem_of_cons in Hin as [->|Hin].
  - destruct l as [|y l]; simpl; [apply occurs_in_refl|].
    exists "", (sep +:+ String.concat sep (y :: l)). done.
  - destruct l as [|y l]; [by apply elem_of_nil in Hin|].
    change (String.concat sep (x :: y :: l))
      with (x +:+ sep +:+ String.concat sep (y :: l)).
    rewrite <- (append_nil_r (String.concat sep (y :: l))).
    rewrite <- append_assoc. apply occurs_in_wrap. by apply IH.
Qed.

(** * get_interface *)

(** One round of [get_interface] whose attempt returns. *)
Lemma get_interface_returns E fuel cfg st i st' :
  config_init.get_interface_attempt E cfg st = (Ret i, st') ->
  config_init.get_interface E (S fuel) cfg st = (Ret i, st').
Proof.
  intros H. simpl. unfold bind, try_except. by rewrite H.
Qed.

(** One round of [get_interface] whose attempt raises something that is
    not a [PermissionError]. *)
Lemma get_interface_propagates E fuel cfg st e st' :
  config_init.get_interface_attempt E cfg st = (Raise e, st') ->
  is_PermissionError e = false ->
  config_init.get_interface E (S fuel) cfg st = (Raise e, st').
Proof.
  intros H He. simpl. unfold bind, try_except. by rewrite H, He.
Qed.

(** One round of [get_interface] whose attempt raises [PermissionError]. *)
Lemma get_interface_retries E fuel cfg st e st' :
  config_init.get_interface_attempt E cfg st = (Raise e, st') ->
  is_PermissionError e = true ->
  config_init.get_interface E (S fuel) cfg st =
    match sleep E (trace st' ++
                   [EvPrint ("PermissionError: " +:+ exn_str e
                             +:+ ". Retrying in 5 seconds...")]) 5 with
    | Returns _ =>
        config_init.get_interface E fuel cfg
          (State (trace st' ++
                  [EvPrint ("PermissionError: " +:+ exn_str e
                            +:+ ". Retrying in 5 seconds...");
                   EvSleep 5])
                 (heap st'))
    | Raises e' =>
        (Raise e',
         State (trace st' ++
                [EvPrint ("PermissionError: " +:+ exn_str e
                          +:+ ". Retrying in 5 seconds...");
                 EvSleep 5])
               (heap st'))
    end.
Proof.
  intros H He. simpl. unfold bind, try_except. rewrite H, He.
  unfold print, time_sleep, call, emit. simpl.
  destruct (sleep E _ 5); simpl; by rewrite <- app_assoc.
Qed.

(** The attempt of a serial configuration without a port, after the
    enumeration. *)
Lemma attempt_enumerates E cfg st p ports :
  deref cfg st !! "interface_type" = Some (VStr "serial") ->
  deref cfg st !! "port" = Some p ->
  truthy p = false ->
  comports E (trace st) = Returns ports ->
  config_init.get_interface_attempt E cfg st =
    match ports with
    | [] => (Raise (Exn ValueError "No serial ports detected."),
             emit EvComports st)
    | [dev] => open E (SerialInterface (VStr dev)) (emit EvComports st)
    | _ =>
        (Raise (Exn ValueError
                  ("Multiple serial ports detected: "
                   +:+ String.concat ", " ports
                   +:+ ". Specify one with the 'port' argument.")),
         emit EvComports st)
    end.
Proof.
  intros Hty Hport Hp Hports.
  unfold config_init.get_interface_attempt, bind, getitem, call.
  rewrite Hty. simpl. rewrite Hport, Hp, Hports.
  destruct ports as [|dev [|dev' ports]]; done.
Qed.

Lemma no_sleep_in_attempt E cfg :
  only true any_exn (fun ev => is_sleep ev = false)
    (config_init.get_interface_attempt E cfg).
Proof.
  unfold config_init.get_interface_attempt, open. repeat only_step.
Qed.

(** As long as every attempt ends in [PermissionError] and the sleep is not
    interrupted, [get_interface] neither returns nor raises, and it has
    slept once per round. *)
Lemma get_interface_keeps_retrying E cfg (h0 : gmap loc dict) :
  (forall st, heap st = h0 ->
     exists e st', config_init.get_interface_attempt E cfg st = (Raise e, st')
                   /\ is_PermissionError e = true) ->
  (forall h, sleep E h 5 = Returns tt) ->
  forall fuel st, heap st = h0 ->
    (config_init.get_interface E fuel cfg st).1 = Diverge
    /\ count is_sleep (trace (config_init.get_interface E fuel cfg st).2)
       = (count is_sleep (trace st) + fuel)%nat.
Proof.
  intros Hfail Hsleep. induction fuel as [|fuel IH]; intros st Hheap.
  - simpl. split; [done|lia].
  - destruct (Hfail st Hheap) as (e & st' & Hatt & He).
    rewrite (get_interface_retries _ _ _ _ _ _ Hatt He), Hsleep.
    pose proof (keeps_heap_get_interface_attempt E cfg st) as Hh.
    destruct (no_sleep_in_attempt E cfg st) as (evs & Ht & Hevs & _).
    rewrite Hatt in Hh, Ht. simpl in Hh, Ht.
    match goal with
    | |- context [config_init.get_interface E fuel cfg ?s] =>
        destruct (IH s) as [Hd Hc]; [simpl; congruence|]
    end.
    split; [done|]. rewrite Hc. simpl. rewrite Ht, !count_app.
    rewrite (count_none is_sleep evs Hevs).
    unfold count. simpl. lia.
Qed.

(** C2: a round of [get_interface] whose attempt fails with
    [PermissionError] prints the message, sleeps 5 seconds and starts the
    next round from the top; a round whose attempt fails with anything else
    raises that exception at once, with nothing printed and no sleep; and as
    long as the attempts keep failing with [PermissionError] the call never
    ends, whatever the number of rounds. *)
Theorem permission_denied_retry (E : Env) (cfg : loc) :
  (forall st e st' fuel,
     config_init.get_interface_attempt E cfg st = (Raise e, st') ->
     if is_PermissionError e then
       config_init.get_interface E (S fuel) cfg st =
         match sleep E (trace st' ++
                        [EvPrint ("PermissionError: " +:+ exn_str e
                                  +:+ ". Retrying in 5 seconds...")]) 5 with
         | Returns _ =>
             config_init.get_interface E fuel cfg
               (State (trace st' ++
                       [EvPrint ("PermissionError: " +:+ exn_str e
                                 +:+ ". Retrying in 5 seconds...");
                        EvSleep 5])
                      (heap st'))
         | Raises e' =>
             (Raise e',
              State (trace st' ++
                     [EvPrint ("PermissionError: " +:+ exn_str e
                               +:+ ". Retrying in 5 seconds...");
                      EvSleep 5])
                    (heap st'))
         end
     else
       config_init.get_interface E (S fuel) cfg st = (Raise e, st'))
  /\ (forall st0,
        (forall st, heap st = heap st0 ->
           exists e st',
             config_init.get_interface_attempt E cfg st = (Raise e, st')
             /\ is_PermissionError e = true) ->
        (forall h, sleep E h 5 = Returns tt) ->
        forall fuel,
          (config_init.get_interface E fuel cfg st0).1 = Diverge
          /\ count is_sleep (trace (config_init.get_interface E fuel cfg st0).2)
             = (count is_sleep (trace st0) + fuel)%nat).
Proof.
  split.
  - intros st e st' fuel Hatt.
    destruct (is_PermissionError e) eqn:He.
    + by apply get_interface_retries.
    + by apply get_interface_propagates.
  - intros st0 Hfail Hsleep fuel.
    by apply (get_interface_keeps_retrying E cfg (heap st0)).
Qed.

(** C3: for a serial configuration without a port, [get_interface]
    enumerates the ports; with one candidate its next call is the opening of
    that port, and when that succeeds it returns the interface bound to it
    with no further call; with no candidate it raises the [ValueError] for
    no ports right after the enumeration; with two or more it raises a
    [ValueError] whose message contains every candidate, again right after
    the enumeration and so without any attempt to open. *)
Theorem serial_port_discovery (E : Env) (cfg : loc) (st : state) (p : value)
    (ports : list string) (fuel : nat) :
  deref cfg st !! "interface_type" = Some (VStr "serial") ->
  deref cfg st !! "port" = Some p ->
  truthy p = false ->
  comports E (trace st) = Returns ports ->
  (forall dev, ports = [dev] ->
     (exists rest,
        trace (config_init.get_interface E (S fuel) cfg st).2 =
          trace st ++ [EvComports; EvOpen (SerialInterface (VStr dev))] ++ rest)
     /\ (open_interface E (trace st ++ [EvComports])
           (SerialInterface (VStr dev)) = Returns tt ->
         config_init.get_interface E (S fuel) cfg st =
           (Ret (SerialInterface (VStr dev)),
            State (trace st ++
                   [EvComports; EvOpen (SerialInterface (VStr dev))])
                  (heap st))))
  /\ (ports = [] ->
      config_init.get_interface E (S fuel) cfg st =
        (Raise (Exn ValueError "No serial ports detected."),
         State (trace st ++ [EvComports]) (heap st)))
  /\ (2 <= length ports ->
      config_init.get_interface E (S fuel) cfg st =
        (Raise (Exn ValueError
                  ("Multiple serial ports detected: "
                   +:+ String.concat ", " ports
                   +:+ ". Specify one with the 'port' argument.")),
         State (trace st ++ [EvComports]) (heap st))
      /\ forall dev, dev ∈ ports ->
           occurs_in dev
             ("Multiple serial ports detected: "
              +:+ String.concat ", " ports
              +:+ ". Specify one with the 'port' argument.")).
Proof.
  intros Hty Hport Hp Hports.
  pose proof (attempt_enumerates E cfg st p ports Hty Hport Hp Hports) as Hatt.
  split; [|split].
  - intros dev ->.
    assert (exists r,
              config_init.get_interface_attempt E cfg st =
                (r, State (trace st ++
                           [EvComports; EvOpen (SerialInterface (VStr dev))])
                          (heap st))
              /\ match open_interface E (trace st ++ [EvComports])
                         (SerialInterface (VStr dev)) with
                 | Returns _ => r = Ret (SerialInterface (VStr dev))
                 | Raises e => r = Raise e
                 end) as (r & Hr & Hrep).
    { rewrite Hatt. unfold open, bind, call, emit. simpl.
      destruct (open_interface E _ _); simpl; rewrite <- app_assoc; eauto. }
    split.
    + destruct r as [i|e|].
      * rewrite (get_interface_returns _ _ _ _ _ _ Hr). simpl.
        by exists [].
      * destruct (is_PermissionError e) eqn:He.
        -- rewrite (get_interface_retries _ _ _ _ _ _ Hr He). simpl.
           destruct (sleep E _ 5).
           ++ match goal with
              | |- context [config_init.get_interface E fuel cfg ?s] =>
                  destruct (only_get_interface E fuel cfg s)
                    as (evs & Ht & _)
              end.
              rewrite Ht. simpl. rewrite <- !app_assoc. simpl. eauto.
           ++ simpl. rewrite <- !app_assoc. simpl. eauto.
        -- rewrite (get_interface_propagates _ _ _ _ _ _ Hr He). simpl.
           by exists [].
      * destruct (open_interface E _ _); discriminate.
    + intros Hopen. rewrite Hopen in Hrep. subst r.
      by apply get_interface_returns.
  - intros ->. by apply get_interface_propagates.
  - intros Hlen. split.
    + apply get_interface_propagates; [|done]. rewrite Hatt.
      destruct ports as [|dev [|dev' ports]]; simpl in Hlen; [lia..|done].
    + intros dev Hin. apply occurs_in_wrap. by apply occurs_in_concat.
Qed.

(** A dict that asks for the serial interface and names no port, and a
    dict that names one. *)
Definition serial_no_port : dict :=
  {[ "interface_type" := VStr "serial"; "port" := VNone ]}.

Definition serial_ttyUSB0 : dict :=
  {[ "interface_type" := VStr "serial"; "port" := VStr "/dev/ttyUSB0" ]}.

(** [E], except that every attempt to open an interface raises [e]. *)
Definition failing_open (e : exn) (E : Env) : Env :=
  {| parse_args := parse_args E;
     config_read := config_read E;
     comports := comports E;
     open_interface := fun _ _ => Raises e;
     requests_get := requests_get E;
     sendText := sendText E;
     send_message := send_message E;
     close := close E;
     sleep := sleep E;
     py_str := py_str E |}.

Definition busy_env : Env :=
  failing_open (Exn PermissionError "[Errno 13] Permission denied")
    (quiet_env ∅ args_cli_host [] (feed_response 200 (JDict []))).

Lemma permission_denied_retry_witness :
  (config_init.get_interface busy_env 3 0
     (State [] {[ 0%nat := serial_ttyUSB0 ]})).1 = Diverge
  /\ count is_sleep
       (trace (config_init.get_interface busy_env 3 0
                 (State [] {[ 0%nat := serial_ttyUSB0 ]})).2) = 3%nat.
Proof.
  apply (proj2 (permission_denied_retry busy_env 0)
           (State [] {[ 0%nat := serial_ttyUSB0 ]})).
  - intros [t h] Hheap. simpl in Hheap. subst h.
    eexists _, _. split; [vm_compute; reflexivity|reflexivity].
  - intros h. reflexivity.
Defined.

Lemma serial_port_discovery_witness :
  config_init.get_interface
    (quiet_env ∅ args_cli_host ["/dev/ttyUSB0"] (feed_response 200 (JDict [])))
    1 0 (State [] {[ 0%nat := serial_no_port ]})
  = (Ret (SerialInterface (VStr "/dev/ttyUSB0")),
     State [EvComports; EvOpen (SerialInterface (VStr "/dev/ttyUSB0"))]
           {[ 0%nat := serial_no_port ]}).
Proof.
  refine (proj2 (proj1 (serial_port_discovery
                          (quiet_env ∅ args_cli_host ["/dev/ttyUSB0"]
                             (feed_response 200 (JDict [])))
                          0 (State [] {[ 0%nat := serial_no_port ]}) VNone
                          ["/dev/ttyUSB0"] 0 _ _ _ _)
                  "/dev/ttyUSB0" eq_refl) _);
    reflexivity.
Defined.

(** * Fetching *)

(** The feed answers 404. *)
Definition not_found : response :=
  {| status_code := 404;
     reason := "Not Found";
     url := "https://api.weather.gov/alerts/active/area/IL";
     text := "{}";
     json_body := Returns (JDict []) |}.

(** C4 (counterexample): on a 404 answer [server.fetch_weather_alerts]
    raises [HTTPError] instead of returning an empty sequence. *)
Lemma fetch_non_200_counterexample :
  status_code not_found <> 200%Z
  /\ server.fetch_weather_alerts
       (quiet_env file_tcp args_cli_host [] not_found) (VStr "IL") start
     = (Raise (Exn HTTPError
                 ("404 Client Error: Not Found for url: "
                  +:+ "https://api.weather.gov/alerts/active/area/IL")),
        State [EvGet "https://api.weather.gov/alerts/active/area/IL" []] ∅).
Proof. split; [done|]. vm_compute. reflexivity. Qed.

(** C4 (amended): on an answer whose status is not 200,
    [message_processing.fetch_weather_alerts] logs the status and the body
    and returns the empty list, [config_init.fetch_weather_alerts] prints
    the status and returns the empty dict, neither raising;
    [server.fetch_weather_alerts] raises [HTTPError] when the status is
    between 400 and 599. *)
Theorem fetch_non_200 (E : Env) (st : state) (r : response) :
  status_code r <> 200%Z ->
  (forall state,
     requests_get E (trace st) (message_processing.WEATHER_API_URL state) []
       = Returns r ->
     message_processing.fetch_weather_alerts E state st =
       (Ret (JList []),
        State (trace st ++
               [EvGet (message_processing.WEATHER_API_URL state) [];
                EvLog ERROR ("Failed to fetch weather alerts: "
                             +:+ str_int (status_code r) +:+ " "
                             +:+ text r)])
              (heap st)))
  /\ (forall location url headers,
        url = "https://api.weather.gov/alerts/active/area/"
              +:+ format_value location ->
        headers = [("User-Agent",
                    "MeshtasticWeatherAlertSystem/1.0 (your_email@example.com)")] ->
        requests_get E (trace st) url headers = Returns r ->
        config_init.fetch_weather_alerts E location st =
          (Ret (JDict []),
           State (trace st ++
                  [EvGet url headers;
                   EvPrint ("Failed to fetch weather alerts: "
                            +:+ str_int (status_code r))])
                 (heap st)))
  /\ (forall state url,
        url = "https://api.weather.gov/alerts/active/area/"
              +:+ format_value state ->
        requests_get E (trace st) url [] = Returns r ->
        (400 <= status_code r < 600)%Z ->
        exists msg,
          server.fetch_weather_alerts E state st =
            (Raise (Exn HTTPError msg),
             State (trace st ++ [EvGet url []]) (heap st))).
Proof.
  intros Hstatus.
  assert ((status_code r =? 200)%Z = false) as Hne by lia.
  split; [|split].
  - intros state Hget.
    unfold message_processing.fetch_weather_alerts, bind, get, call.
    rewrite Hget, Hne. unfold ret, logging, emit. simpl.
    by rewrite <- app_assoc.
  - intros location url headers -> -> Hget.
    unfold config_init.fetch_weather_alerts, bind, get, call.
    rewrite Hget, Hne. unfold ret, print, emit. simpl.
    by rewrite <- app_assoc.
  - intros state url -> Hget Hrange.
    unfold server.fetch_weather_alerts, bind, get, call.
    rewrite Hget. unfold raise_for_status.
    destruct ((400 <=? status_code r)%Z && (status_code r <? 500)%Z) eqn:H4;
      simpl; [eauto|].
    destruct ((500 <=? status_code r)%Z && (status_code r <? 600)%Z) eqn:H5;
      simpl; [eauto|]. lia.
Qed.

Lemma fetch_non_200_witness :
  message_processing.fetch_weather_alerts
    (quiet_env file_tcp args_cli_host [] not_found) "IL" start
  = (Ret (JList []),
     State [EvGet "https://api.weather.gov/alerts/active/area/IL" [];
            EvLog ERROR "Failed to fetch weather alerts: 404 {}"] ∅).
Proof.
  refine (proj1 (fetch_non_200 (quiet_env file_tcp args_cli_host [] not_found)
                   start not_found _) "IL" _);
    [vm_compute; discriminate|reflexivity].
Defined.

(** * Formatting and sending *)

(** The text that stands for the field [k] of [props]: the field formatted
    when it is there, [placeholder] when it is missing. *)
Definition field_or (E : Env) (props : list (string * json))
    (k placeholder : string) : string :=
  match assoc k props with
  | Some v => format_json E v
  | None => placeholder
  end.

(** The [properties] of an alert are the dict [props], or are missing, in
    which case the code goes on with an empty dict. *)
Definition properties_of (alert props : list (string * json)) : Prop :=
  assoc "properties" alert = Some (JDict props)
  \/ (assoc "properties" alert = None /\ props = []).

(** The outcome of a call that returns nothing. *)
Definition of_reply (r : reply unit) : outcome unit :=
  match r with
  | Returns _ => Ret tt
  | Raises e => Raise e
  end.

(** The three message templates. *)
Definition template_message_processing (headline description instruction : string)
    : string :=
  "🚨Weather Alert🚨" +:+ nl +:+ "Headline: " +:+ headline
  +:+ nl +:+ "Description: " +:+ description
  +:+ nl +:+ "Instruction: " +:+ instruction.

Definition template_server (event headline description : string) : string :=
  "⚠️ Weather Alert: " +:+ event +:+ nl +:+ headline +:+ nl +:+ description.

Definition template_config_init (event description : string) : string :=
  "Weather Alert: " +:+ event +:+ " - " +:+ description.

Lemma json_get_properties alert props st :
  properties_of alert props ->
  json_get (JDict alert) "properties" (JDict []) st = (Ret (JDict props), st).
Proof.
  intros [H|[H ->]]; simpl; by rewrite H.
Qed.

Lemma json_get_field E props k placeholder st :
  exists v,
    json_get (JDict props) k (JStr placeholder) st = (Ret v, st)
    /\ format_json E v = field_or E props k placeholder.
Proof.
  unfold field_or. simpl. destruct (assoc k props) as [v|]; eauto.
Qed.

(** [format_alert_message] on an alert whose properties are a dict. *)
Lemma format_alert_message_run E alert props st :
  properties_of alert props ->
  message_processing.format_alert_message E (JDict alert) st =
    (Ret (template_message_processing
            (field_or E props "headline" "No headline")
            (field_or E props "description" "No description")
            (field_or E props "instruction" "No instruction")),
     st).
Proof.
  intros Hprops. unfold message_processing.format_alert_message, bind.
  rewrite (json_get_properties _ _ _ Hprops).
  destruct (json_get_field E props "headline" "No headline" st)
    as (h & -> & <-).
  destruct (json_get_field E props "description" "No description" st)
    as (d & -> & <-).
  destruct (json_get_field E props "instruction" "No instruction" st)
    as (i & -> & <-).
  reflexivity.
Qed.

(** [message_processing.broadcast_weather_alerts] when the feed gives one
    alert. *)
Lemma message_processing_broadcast_one E i state st r body alert props :
  requests_get E (trace st) (message_processing.WEATHER_API_URL state) []
    = Returns r ->
  status_code r = 200%Z ->
  json_body r = Returns (JDict body) ->
  assoc "features" body = Some (JList [JDict alert]) ->
  properties_of alert props ->
  message_processing.broadcast_weather_alerts E i state st =
    let message :=
      template_message_processing
        (field_or E props "headline" "No headline")
        (field_or E props "description" "No description")
        (field_or E props "instruction" "No instruction") in
    (of_reply
       (send_message E
          (trace st ++ [EvGet (message_processing.WEATHER_API_URL state) []])
          message BROADCAST_NUM i),
     State (trace st ++
            [EvGet (message_processing.WEATHER_API_URL state) [];
             EvSendMessage message BROADCAST_NUM i])
           (heap st)).
Proof.
  intros Hget Hstatus Hjson Hfeatures Hprops.
  unfold message_processing.broadcast_weather_alerts,
    message_processing.fetch_weather_alerts, bind, get, call.
  rewrite Hget, Hstatus. simpl. unfold json_of. rewrite Hjson. simpl.
  rewrite Hfeatures. simpl. unfold bind.
  rewrite (format_alert_message_run _ _ _ _ Hprops).
  unfold message_processing.utils_send_message, call, emit. simpl.
  destruct (send_message E _ _ _ _); simpl; by rewrite <- app_assoc.
Qed.

(** [server.broadcast_alerts] on one alert with the three fields. *)
Lemma server_broadcast_one E i st alert props event headline description :
  assoc "properties" alert = Some (JDict props) ->
  assoc "event" props = Some event ->
  assoc "headline" props = Some headline ->
  assoc "description" props = Some description ->
  server.broadcast_alerts E (JList [JDict alert]) i st =
    let message :=
      template_server (format_json E event) (format_json E headline)
        (format_json E description) in
    (of_reply
       (sendText E
          (trace st ++ [EvLog INFO ("Broadcasting message: " +:+ message)])
          i message (Some BROADCAST_NUM)),
     State (trace st ++
            [EvLog INFO ("Broadcasting message: " +:+ message);
             EvSendText i message (Some BROADCAST_NUM)])
           (heap st)).
Proof.
  intros Hprops Hev Hh Hd.
  unfold server.broadcast_alerts, bind. simpl.
  rewrite Hprops. simpl. rewrite Hev. simpl. rewrite Hh. simpl.
  rewrite Hd. simpl. unfold bind, logging, interface_sendText, call, emit.
  simpl.
  destruct (sendText E _ _ _ _); simpl; by rewrite <- app_assoc.
Qed.

(** [config_init.broadcast_weather_alerts] on a feed result with one
    feature. *)
Lemma config_init_broadcast_one E i st body feature props :
  assoc "features" body = Some (JList [JDict feature]) ->
  properties_of feature props ->
  config_init.broadcast_weather_alerts E i (JDict body) st =
    let message :=
      template_config_init (field_or E props "event" "Unknown Event")
        (field_or E props "description" "No description available") in
    match sendText E (trace st) i message None with
    | Returns _ =>
        (Ret tt,
         State (trace st ++
                [EvSendText i message None;
                 EvPrint ("Broadcasting: " +:+ message)])
               (heap st))
    | Raises e =>
        (Raise e, State (trace st ++ [EvSendText i message None]) (heap st))
    end.
Proof.
  intros Hfeatures Hprops.
  unfold config_init.broadcast_weather_alerts, bind. simpl.
  rewrite Hfeatures. simpl. unfold bind.
  rewrite (json_get_properties _ _ _ Hprops).
  destruct (json_get_field E props "event" "Unknown Event" st)
    as (ev & -> & <-).
  destruct (json_get_field E props "description" "No description available" st)
    as (d & -> & <-).
  unfold interface_sendText, call, print, emit. simpl.
  destruct (sendText E _ _ _ _); simpl; [|done]. by rewrite <- app_assoc.
Qed.

Lemma field_or_present E props k placeholder s :
  assoc k props = Some (JStr s) -> field_or E props k placeholder = s.
Proof. intros H. unfold field_or. by rewrite H. Qed.

(** An alert whose properties are an empty dict. *)
Definition alert_no_fields : json := JDict [("properties", JDict [])].

(** The alert of the end-to-end scenario, with a headline that does not
    repeat the event. *)
Definition alert_tornado : list (string * json) :=
  [("properties",
    JDict [("event", JStr "Tornado Warning");
           ("headline", JStr "Severe weather statement");
           ("description", JStr "A tornado was sighted near Springfield");
           ("instruction", JStr "Take shelter")])].

Definition feed_tornado : response :=
  feed_response 200 (JDict [("features", JList [JDict alert_tornado])]).

Definition radio : interface := SerialInterface (VStr "/dev/ttyUSB0").

(** C5 (counterexample): for an alert without any of the four fields, the
    message of [format_alert_message] does not contain [Unknown Event], and
    [server.broadcast_alerts] raises [KeyError]. *)
Lemma alert_placeholders_counterexample :
  (exists m,
     message_processing.format_alert_message
       (quiet_env file_tcp args_cli_host [] feed_tornado) alert_no_fields start
     = (Ret m, start)
     /\ is_substring "Unknown Event" m = false)
  /\ server.broadcast_alerts
       (quiet_env file_tcp args_cli_host [] feed_tornado)
       (JList [alert_no_fields]) radio start
     = (Raise (Exn KeyError "'event'"), start).
Proof.
  split; [|vm_compute; reflexivity].
  eexists. split; [vm_compute; reflexivity|]. vm_compute. reflexivity.
Qed.

(** C5 (amended): for an alert that is a dict whose [properties] are a dict
    or are missing, [format_alert_message] returns, changes nothing, and its
    message holds exactly [No headline], [No description] and
    [No instruction] in place of a missing headline, description and
    instruction; the event is no part of that message, so that nothing is
    put in for a missing event. *)
Theorem alert_placeholders (E : Env) (alert props : list (string * json))
    (st : state) :
  properties_of alert props ->
  message_processing.format_alert_message E (JDict alert) st =
    (Ret (template_message_processing
            (field_or E props "headline" "No headline")
            (field_or E props "description" "No description")
            (field_or E props "instruction" "No instruction")),
     st).
Proof. apply format_alert_message_run. Qed.

Lemma alert_placeholders_witness :
  message_processing.format_alert_message
    (quiet_env file_tcp args_cli_host [] feed_tornado)
    (JDict [("properties", JDict [("headline", JStr "Flood Warning")])]) start
  = (Ret (template_message_processing "Flood Warning" "No description"
            "No instruction"),
     start).
Proof.
  refine (alert_placeholders
            (quiet_env file_tcp args_cli_host [] feed_tornado)
            [("properties", JDict [("headline", JStr "Flood Warning")])]
            [("headline", JStr "Flood Warning")] start _).
  left. reflexivity.
Defined.

(** C6 (counterexample): for the alert of the scenario, the one message that
    [message_processing.broadcast_weather_alerts] sends does not contain the
    event, and the one that [server.broadcast_alerts] sends does not contain
    the instruction. *)
Lemma one_alert_one_send_counterexample :
  (exists m,
     message_processing.broadcast_weather_alerts
       (quiet_env file_tcp args_cli_host [] feed_tornado) radio "IL" start
     = (Ret tt,
        State [EvGet "https://api.weather.gov/alerts/active/area/IL" [];
               EvSendMessage m BROADCAST_NUM radio] ∅)
     /\ is_substring "Tornado Warning" m = false)
  /\ (exists m,
        server.broadcast_alerts
          (quiet_env file_tcp args_cli_host [] feed_tornado)
          (JList [JDict alert_tornado]) radio start
        = (Ret tt,
           State [EvLog INFO ("Broadcasting message: " +:+ m);
                  EvSendText radio m (Some BROADCAST_NUM)] ∅)
        /\ is_substring "Take shelter" m = false).
Proof.
  split; eexists; (split; [vm_compute; reflexivity|]); vm_compute; reflexivity.
Qed.

(** C6 (amended): when the feed gives one alert whose event, headline,
    description and instruction are strings,
    [message_processing.broadcast_weather_alerts] calls [send_message] once,
    with the headline, the description and the instruction in the order of
    its template and [BROADCAST_NUM], and makes no other call after the
    request; [server.broadcast_alerts] logs and calls [sendText] once, with
    the event, the headline and the description in the order of its
    template and [BROADCAST_NUM]; [config_init.broadcast_weather_alerts]
    calls [sendText] once, with the event and the description and no
    destination. *)
Theorem one_alert_one_send (E : Env) (i : interface) (st : state)
    (alert props : list (string * json))
    (event headline description instruction : string) :
  assoc "properties" alert = Some (JDict props) ->
  assoc "event" props = Some (JStr event) ->
  assoc "headline" props = Some (JStr headline) ->
  assoc "description" props = Some (JStr description) ->
  assoc "instruction" props = Some (JStr instruction) ->
  (forall state r body,
     requests_get E (trace st) (message_processing.WEATHER_API_URL state) []
       = Returns r ->
     status_code r = 200%Z ->
     json_body r = Returns (JDict body) ->
     assoc "features" body = Some (JList [JDict alert]) ->
     let message :=
       template_message_processing headline description instruction in
     message_processing.broadcast_weather_alerts E i state st =
       (of_reply
          (send_message E
             (trace st ++
              [EvGet (message_processing.WEATHER_API_URL state) []])
             message BROADCAST_NUM i),
        State (trace st ++
               [EvGet (message_processing.WEATHER_API_URL state) [];
                EvSendMessage message BROADCAST_NUM i])
              (heap st)))
  /\ (let message := template_server event headline description in
      server.broadcast_alerts E (JList [JDict alert]) i st =
        (of_reply
           (sendText E
              (trace st ++ [EvLog INFO ("Broadcasting message: " +:+ message)])
              i message (Some BROADCAST_NUM)),
         State (trace st ++
                [EvLog INFO ("Broadcasting message: " +:+ message);
                 EvSendText i message (Some BROADCAST_NUM)])
               (heap st)))
  /\ (forall body,
        assoc "features" body = Some (JList [JDict alert]) ->
        let message := template_config_init event description in
        config_init.broadcast_weather_alerts E i (JDict body) st =
          match sendText E (trace st) i message None with
          | Returns _ =>
              (Ret tt,
               State (trace st ++
                      [EvSendText i message None;
                       EvPrint ("Broadcasting: " +:+ message)])
                     (heap st))
          | Raises e =>
              (Raise e,
               State (trace st ++ [EvSendText i message None]) (heap st))
          end).
Proof.
  intros Hprops Hev Hh Hd Hi.
  assert (properties_of alert props) as Hof by (by left).
  split; [|split].
  - intros state r body Hget Hstatus Hjson Hfeatures.
    rewrite (message_processing_broadcast_one _ _ _ _ _ _ _ _
               Hget Hstatus Hjson Hfeatures Hof).
    by rewrite (field_or_present _ _ _ _ _ Hh),
      (field_or_present _ _ _ _ _ Hd), (field_or_present _ _ _ _ _ Hi).
  - by rewrite (server_broadcast_one _ _ _ _ _ _ _ _ Hprops Hev Hh Hd).
  - intros body Hfeatures.
    rewrite (config_init_broadcast_one _ _ _ _ _ _ Hfeatures Hof).
    by rewrite (field_or_present _ _ _ _ _ Hev),
      (field_or_present _ _ _ _ _ Hd).
Qed.

Lemma one_alert_one_send_witness :
  server.broadcast_alerts
    (quiet_env file_tcp args_cli_host [] feed_tornado)
    (JList [JDict alert_tornado]) radio start
  = (Ret tt,
     State [EvLog INFO
              ("Broadcasting message: "
               +:+ template_server "Tornado Warning"
                     "Severe weather statement"
                     "A tornado was sighted near Springfield");
            EvSendText radio
              (template_server "Tornado Warning" "Severe weather statement"
                 "A tornado was sighted near Springfield")
              (Some BROADCAST_NUM)] ∅).
Proof.
  refine (proj1 (proj2 (one_alert_one_send
                          (quiet_env file_tcp args_cli_host [] feed_tornado)
                          radio start alert_tornado _
                          "Tornado Warning" "Severe weather statement"
                          "A tornado was sighted near Springfield"
                          "Take shelter" _ _ _ _ _)));
    reflexivity.
Defined.

(** * Counting calls *)

(** [counts p n m]: [m] adds exactly [n] events that satisfy [p]. *)
Definition counts {A} (p : event -> bool) (n : nat) (m : M A) : Prop :=
  forall st, count p (trace (m st).2) = (count p (trace st) + n)%nat.

Lemma counts_zero {A} d X p (m : M A) :
  only d X (fun ev => p ev = false) m -> counts p 0 m.
Proof.
  intros Hm st. destruct (Hm st) as (evs & -> & Hevs & _).
  by rewrite count_app, (count_none p evs Hevs).
Qed.

Lemma counts_bind {A B} p n (m : M A) (k : A -> M B) :
  counts p n m -> (forall a, counts p 0 (k a)) -> counts p n (bind m k).
Proof.
  intros Hm Hk st. unfold bind. specialize (Hm st).
  destruct (m st) as [[a|e|] st1]; simpl in *; [|done..].
  rewrite Hk, Hm. lia.
Qed.

Lemma counts_try_except {A} p n (body : M A) catches handler :
  counts p n body -> (forall e, counts p 0 (handler e)) ->
  counts p n (try_except body catches handler).
Proof.
  intros Hb Hh st. unfold try_except. specialize (Hb st).
  destruct (body st) as [[a|e|] st1]; simpl in *; [done| |done].
  destruct (catches e); [|done]. rewrite Hh, Hb. lia.
Qed.

Lemma counts_call {A} p ev (r : list event -> reply A) :
  p ev = true -> counts p 1 (call ev r).
Proof.
  intros Hp st. unfold call.
  destruct (r (trace st)); simpl; rewrite count_app; unfold count; simpl;
    rewrite filter_cons_True by done; done.
Qed.

(** * The parts of the loops *)

Ltac only_auto :=
  repeat (only_step; try (intros; exact I)).

Section Parts.

Variable E : Env.
Variable d : bool.
Variable P : event -> Prop.

Hypothesis P_get : forall u h, P (EvGet u h).
Hypothesis P_send : forall i t dst, P (EvSendText i t dst).
Hypothesis P_send_message : forall t dst i, P (EvSendMessage t dst i).
Hypothesis P_sleep : forall s, P (EvSleep s).
Hypothesis P_log : forall l m, P (EvLog l m).

Lemma only_server_fetch state :
  only d any_exn P (server.fetch_weather_alerts E state).
Proof.
  unfold server.fetch_weather_alerts, get. only_auto.
Qed.

Lemma only_server_broadcast alerts i :
  only d any_exn P (server.broadcast_alerts E alerts i).
Proof.
  unfold server.broadcast_alerts, interface_sendText. only_auto.
Qed.

Lemma only_message_processing_broadcast i state :
  only d any_exn P (message_processing.broadcast_weather_alerts E i state).
Proof.
  unfold message_processing.broadcast_weather_alerts,
    message_processing.fetch_weather_alerts,
    message_processing.format_alert_message,
    message_processing.utils_send_message, get.
  only_auto.
Qed.

Lemma only_time_sleep secs : only d any_exn P (time_sleep E secs).
Proof. unfold time_sleep. only_auto. Qed.

End Parts.

(** * The loop of server.py *)

Definition not_close (ev : event) : Prop := is_close ev = false.

(** The loop of [server.main] does not return and does not close the
    interface. *)
Lemma server_main_loop_runs E fuel i state :
  runs not_close (fun r => r <> Ret tt) (server.main_loop E fuel i state).
Proof.
  induction fuel as [|fuel IH]; simpl.
  - by apply runs_diverge.
  - eapply runs_bind;
      [apply (only_server_fetch E true not_close); done| | |]; try done.
    intros alerts _.
    eapply runs_bind with (Q1 := ends true any_exn); try done.
    { destruct (json_truthy alerts).
      - apply (only_server_broadcast E true not_close); done.
      - by apply only_logging. }
    intros _ _.
    eapply runs_bind;
      [apply (only_time_sleep E true not_close); done| | |]; try done.
Qed.

(** What the [try] statement of [server.main] makes of the loop. *)
Lemma server_main_try_run E fuel i state st :
  server.main_try E fuel i state st =
    match server.main_loop E fuel i state st with
    | (Raise e, st1) =>
        if is_KeyboardInterrupt e then
          (of_reply
             (close E
                (trace st1 ++
                 [EvLog INFO "Shutting down the Weather Alerts system..."]) i),
           State (trace st1 ++
                  [EvLog INFO "Shutting down the Weather Alerts system...";
                   EvClose i])
                 (heap st1))
        else if is_Exception e then
          (of_reply
             (close E
                (trace st1 ++
                 [EvLog ERROR ("An error occurred: " +:+ exn_str e)]) i),
           State (trace st1 ++
                  [EvLog ERROR ("An error occurred: " +:+ exn_str e);
                   EvClose i])
                 (heap st1))
        else (Raise e, st1)
    | r => r
    end.
Proof.
  unfold server.main_try, try_except2.
  destruct (server.main_loop E fuel i state st) as [[a|e|] st1]; [done| |done].
  unfold bind, logging, interface_close, call, emit. simpl.
  destruct (is_KeyboardInterrupt e).
  - destruct (close E _ i) as [[]|e']; simpl; by rewrite <- app_assoc.
  - destruct (is_Exception e); [|done].
    destruct (close E _ i) as [[]|e']; simpl; by rewrite <- app_assoc.
Qed.

(** * The loop of message_processing.py *)

(** One round of [message_processing.main] ends normally or with an
    exception that [except Exception] does not catch, and closes nothing. *)
Lemma main_cycle_runs E i state interval :
  runs not_close
    (fun r => r = Ret tt \/ exists e, r = Raise e /\ is_Exception e = false)
    (message_processing.main_cycle E i state interval).
Proof.
  unfold message_processing.main_cycle.
  eapply runs_try_except with (Q1 := ends false any_exn).
  - apply only_bind.
    + apply (only_message_processing_broadcast E false not_close); done.
    + intros _. apply (only_time_sleep E false not_close); done.
  - intros []. by left.
  - done.
  - intros e _ He. right. eauto.
  - intros e _ _. apply runs_logging; [done|by left].
Qed.

Lemma message_processing_main_runs E fuel i state interval :
  runs not_close
    (fun r => r = Diverge \/ exists e, r = Raise e /\ is_Exception e = false)
    (message_processing.main E fuel i state interval).
Proof.
  induction fuel as [|fuel IH]; simpl.
  - apply runs_diverge. by left.
  - eapply runs_bind; [apply main_cycle_runs| | |].
    + intros _ _. apply IH.
    + intros e [H|H]; [discriminate|by right].
    + intros [H|(e & H & _)]; discriminate.
Qed.

(** An exception that [except Exception] catches ends the round, is logged,
    and the next round begins. *)
Lemma main_cycle_catches E i state interval st e st' :
  bind (message_processing.broadcast_weather_alerts E i state)
    (fun _ => time_sleep E interval) st = (Raise e, st') ->
  is_Exception e = true ->
  message_processing.main_cycle E i state interval st =
    (Ret tt,
     State (trace st' ++ [EvLog ERROR ("Error in main loop: " +:+ exn_str e)])
           (heap st')).
Proof.
  intros Hbody He. unfold message_processing.main_cycle, try_except.
  by rewrite Hbody, He.
Qed.

(** The environment raises nothing but exceptions derived from
    [Exception] in the calls that a round of [message_processing.main]
    makes. *)
Definition raises_only_Exception (E : Env) : Prop :=
  (forall h u hd e, requests_get E h u hd = Raises e -> is_Exception e = true)
  /\ (forall h u hd r e,
        requests_get E h u hd = Returns r ->
        json_body r = Raises e -> is_Exception e = true)
  /\ (forall h m dst i e,
        send_message E h m dst i = Raises e -> is_Exception e = true)
  /\ (forall h s e, sleep E h s = Raises e -> is_Exception e = true).

Definition not_get (ev : event) : Prop := is_get ev = false.

(** Every round of [message_processing.main] makes exactly one request to
    the feed. *)
Lemma main_cycle_counts E i state interval :
  counts is_get 1 (message_processing.main_cycle E i state interval).
Proof.
  unfold message_processing.main_cycle.
  apply counts_try_except.
  - apply counts_bind.
    + unfold message_processing.broadcast_weather_alerts.
      apply counts_bind.
      * unfold message_processing.fetch_weather_alerts.
        apply counts_bind; [by apply counts_call|].
        intros response. apply (counts_zero true any_exn).
        only_auto.
      * intros alerts. apply (counts_zero true any_exn).
        unfold message_processing.format_alert_message,
          message_processing.utils_send_message.
        only_auto.
    + intros _. apply (counts_zero true any_exn).
      unfold time_sleep. only_auto.
  - intros e. apply (counts_zero true any_exn). only_auto.
Qed.

(** When the environment raises only exceptions derived from [Exception],
    so does the body of a round, and the round returns. *)
Lemma main_cycle_returns E i state interval st :
  raises_only_Exception E ->
  (message_processing.main_cycle E i state interval st).1 = Ret tt.
Proof.
  intros (Hget & Hjson & Hsend & Hsleep).
  pose (X := fun e => is_Exception e = true).
  pose (P := fun _ : event => True).
  assert (forall ev, P ev) as HP by done.
  assert (forall c msg, is_Exception (Exn c msg) = true -> X (Exn c msg))
    as HX by done.
  assert (runs P (fun r => r = Ret tt)
            (message_processing.main_cycle E i state interval)) as Hruns.
  { unfold message_processing.main_cycle.
    eapply runs_try_except with (Q1 := ends false X).
    - apply only_bind;
        [|intros _; unfold time_sleep; apply only_call;
          [apply HP|intros h e He; exact (Hsleep _ _ _ He)]].
      unfold message_processing.broadcast_weather_alerts.
      apply only_bind.
      + unfold message_processing.fetch_weather_alerts, get.
        eapply runs_bind with
          (Q1 := fun r =>
                   match r with
                   | Ret resp =>
                       forall e, json_body resp = Raises e ->
                                 is_Exception e = true
                   | Raise e => is_Exception e = true
                   | Diverge => False
                   end).
        * apply runs_call; [apply HP|..]; simpl; eauto.
        * intros resp Hresp.
          destruct (status_code resp =? 200)%Z.
          -- apply only_bind; [by apply only_json_of|].
             intros body. apply only_json_get; intros; by apply HX.
          -- apply only_bind; [apply only_logging, HP|].
             intros _. apply only_ret.
        * done.
        * done.
      + intros alerts.
        apply only_bind; [apply only_json_iter; intros; by apply HX|].
        intros l. apply only_for_each. intros alert.
        unfold message_processing.format_alert_message,
          message_processing.utils_send_message.
        apply only_bind.
        * repeat (apply only_bind;
                    [apply only_json_get; intros; by apply HX|intros ?]).
          apply only_ret.
        * intros message. apply only_call; [apply HP|].
          intros h e He. exact (Hsend _ _ _ _ _ He).
    - by intros [].
    - done.
    - intros e He Hne. simpl in He. unfold X in He. congruence.
    - intros e _ _. apply runs_logging; [apply HP|done]. }
  destruct (Hruns st) as (_ & _ & _ & H). exact H.
Qed.

(** The loop of [message_processing.main] does not end while nothing but
    exceptions derived from [Exception] is raised, and it makes one request
    per round. *)
Lemma message_processing_main_never_ends E i state interval :
  raises_only_Exception E ->
  forall fuel st,
    (message_processing.main E fuel i state interval st).1 = Diverge
    /\ count is_get
         (trace (message_processing.main E fuel i state interval st).2)
       = (count is_get (trace st) + fuel)%nat.
Proof.
  intros HE. induction fuel as [|fuel IH]; intros st; simpl.
  - split; [done|lia].
  - unfold bind.
    pose proof (main_cycle_returns E i state interval st HE) as Hret.
    pose proof (main_cycle_counts E i state interval st) as Hcount.
    destruct (message_processing.main_cycle E i state interval st)
      as [r st1]. simpl in *. subst r.
    destruct (IH st1) as [Hd Hc]. split; [done|]. rewrite Hc, Hcount. lia.
Qed.

(** * The loops and their ends *)

(** The feed answers 503. *)
Definition service_unavailable : response :=
  {| status_code := 503;
     reason := "Service Unavailable";
     url := "https://api.weather.gov/alerts/active/area/IL";
     text := "";
     json_body := Raises (Exn JSONDecodeError "Expecting value") |}.

(** [E], except that every request to the feed raises [e]. *)
Definition failing_get (e : exn) (E : Env) : Env :=
  {| parse_args := parse_args E;
     config_read := config_read E;
     comports := comports E;
     open_interface := open_interface E;
     requests_get := fun _ _ _ => Raises e;
     sendText := sendText E;
     send_message := send_message E;
     close := close E;
     sleep := sleep E;
     py_str := py_str E |}.

(** [E], except that every sleep is interrupted by [e]. *)
Definition failing_sleep (e : exn) (E : Env) : Env :=
  {| parse_args := parse_args E;
     config_read := config_read E;
     comports := comports E;
     open_interface := open_interface E;
     requests_get := requests_get E;
     sendText := sendText E;
     send_message := send_message E;
     close := close E;
     sleep := fun _ _ => Raises e;
     py_str := py_str E |}.

(** C1 (the code at the failing input): when every request to the feed
    raises a connection error, [message_processing.main] catches and logs
    the exception of each round, but the round skips its [time.sleep], which
    stands inside the [try] after the broadcast: the next request follows
    the log entry at once, so that two rounds leave two requests and two
    log entries in the trace and not a single sleep, and the loop goes
    on. *)
Theorem main_skips_sleep_after_error :
  message_processing.main
    (failing_get (Exn (OtherException "ConnectionError") "Connection refused")
       (quiet_env file_tcp args_cli_host [] service_unavailable))
    2 radio "IL" 300 start
  = (Diverge,
     State [EvGet "https://api.weather.gov/alerts/active/area/IL" [];
            EvLog ERROR "Error in main loop: Connection refused";
            EvGet "https://api.weather.gov/alerts/active/area/IL" [];
            EvLog ERROR "Error in main loop: Connection refused"] ∅).
Proof. vm_compute. reflexivity. Qed.

(** C7 (counterexample): the loop of [message_processing.main] ends on an
    interrupt during the sleep without any call of [close]. *)
Lemma loop_end_and_close_counterexample :
  message_processing.main
    (failing_sleep (Exn KeyboardInterrupt "")
       (quiet_env file_tcp args_cli_host [] (feed_response 200 (JDict []))))
    3 radio "IL" 300 start
  = (Raise (Exn KeyboardInterrupt ""),
     State [EvGet "https://api.weather.gov/alerts/active/area/IL" [];
            EvSleep 300] ∅).
Proof. vm_compute. reflexivity. Qed.

(** C7 (amended): the loop of [message_processing.main] ends only on an
    exception that is not derived from [Exception] (such as the
    [KeyboardInterrupt] of an external interrupt), and
    [message_processing.main] never calls [close]. *)
Theorem loop_end_and_close (E : Env) (i : interface) (fuel : nat)
    (st : state) (state : string) (interval : Z) :
  let r := message_processing.main E fuel i state interval st in
  (r.1 = Diverge \/ exists e, r.1 = Raise e /\ is_Exception e = false)
  /\ count is_close (trace r.2) = count is_close (trace st).
Proof.
  intros r. subst r.
  destruct (message_processing_main_runs E fuel i state interval st)
    as (evs & Ht & Hevs & Hret).
  split; [done|].
  rewrite Ht, count_app, (count_none is_close evs Hevs). lia.
Qed.

(** * More on get_interface *)

Lemma open_run E i st :
  open E i st =
    (match open_interface E (trace st) i with
     | Returns _ => Ret i
     | Raises e => Raise e
     end,
     State (trace st ++ [EvOpen i]) (heap st)).
Proof.
  unfold open, bind, call, emit. by destruct (open_interface E (trace st) i).
Qed.

(** The attempt of a serial configuration that names a port. *)
Lemma attempt_explicit_port E cfg st p :
  deref cfg st !! "interface_type" = Some (VStr "serial") ->
  deref cfg st !! "port" = Some p ->
  truthy p = true ->
  config_init.get_interface_attempt E cfg st =
    (match open_interface E (trace st) (SerialInterface p) with
     | Returns _ => Ret (SerialInterface p)
     | Raises e => Raise e
     end,
     State (trace st ++ [EvOpen (SerialInterface p)]) (heap st)).
Proof.
  intros Hty Hport Hp.
  unfold config_init.get_interface_attempt, bind, getitem.
  rewrite Hty. simpl. rewrite Hport, Hp. apply open_run.
Qed.

(** The attempt of a TCP configuration. *)
Lemma attempt_tcp E cfg st hostname :
  deref cfg st !! "interface_type" = Some (VStr "tcp") ->
  deref cfg st !! "hostname" = Some hostname ->
  config_init.get_interface_attempt E cfg st =
    if truthy hostname then
      (match open_interface E (trace st) (TCPInterface hostname) with
       | Returns _ => Ret (TCPInterface hostname)
       | Raises e => Raise e
       end,
       State (trace st ++ [EvOpen (TCPInterface hostname)]) (heap st))
    else
      (Raise (Exn ValueError "Hostname must be specified for TCP interface"),
       st).
Proof.
  intros Hty Hhost.
  unfold config_init.get_interface_attempt, bind, getitem.
  rewrite Hty. simpl. rewrite Hty. simpl. rewrite Hhost.
  destruct (truthy hostname); simpl; [|done].
  rewrite Hhost. apply open_run.
Qed.

(** X1: with a port in the configuration, [get_interface] makes one call,
    the opening of that very port, without enumerating the ports of the
    machine, and returns the interface when the opening succeeds. *)
Theorem explicit_port_opened (E : Env) (cfg : loc) (st : state) (p : value)
    (fuel : nat) :
  deref cfg st !! "interface_type" = Some (VStr "serial") ->
  deref cfg st !! "port" = Some p ->
  truthy p = true ->
  open_interface E (trace st) (SerialInterface p) = Returns tt ->
  config_init.get_interface E (S fuel) cfg st =
    (Ret (SerialInterface p),
     State (trace st ++ [EvOpen (SerialInterface p)]) (heap st)).
Proof.
  intros Hty Hport Hp Hopen. apply get_interface_returns.
  by rewrite (attempt_explicit_port _ _ _ _ Hty Hport Hp), Hopen.
Qed.

Lemma explicit_port_opened_witness :
  config_init.get_interface
    (quiet_env ∅ args_cli_host ["/dev/ttyACM0"; "/dev/ttyUSB0"]
       (feed_response 200 (JDict [])))
    1 0 (State [] {[ 0%nat := serial_ttyUSB0 ]})
  = (Ret (SerialInterface (VStr "/dev/ttyUSB0")),
     State [EvOpen (SerialInterface (VStr "/dev/ttyUSB0"))]
           {[ 0%nat := serial_ttyUSB0 ]}).
Proof.
  refine (explicit_port_opened _ 0 (State [] {[ 0%nat := serial_ttyUSB0 ]})
            (VStr "/dev/ttyUSB0") 0 _ _ _ _);
    reflexivity.
Defined.

(** X2: for a TCP configuration, a hostname that is [None] or empty makes
    [get_interface] raise [ValueError] at once, before any external call;
    otherwise the one call is the opening of a TCP interface to the value
    of [hostname], returned when the opening succeeds. *)
Theorem tcp_needs_hostname (E : Env) (cfg : loc) (st : state)
    (hostname : value) (fuel : nat) :
  deref cfg st !! "interface_type" = Some (VStr "tcp") ->
  deref cfg st !! "hostname" = Some hostname ->
  (truthy hostname = false ->
   config_init.get_interface E (S fuel) cfg st =
     (Raise (Exn ValueError "Hostname must be specified for TCP interface"),
      st))
  /\ (truthy hostname = true ->
      open_interface E (trace st) (TCPInterface hostname) = Returns tt ->
      config_init.get_interface E (S fuel) cfg st =
        (Ret (TCPInterface hostname),
         State (trace st ++ [EvOpen (TCPInterface hostname)]) (heap st))).
Proof.
  intros Hty Hhost.
  pose proof (attempt_tcp E cfg st hostname Hty Hhost) as Hatt.
  split.
  - intros Hf. rewrite Hf in Hatt. by apply get_interface_propagates.
  - intros Ht Hopen. rewrite Ht, Hopen in Hatt.
    by apply get_interface_returns.
Qed.

Definition tcp_no_hostname : dict :=
  {[ "interface_type" := VStr "tcp"; "hostname" := VStr "" ]}.

Lemma tcp_needs_hostname_witness :
  config_init.get_interface
    (quiet_env ∅ args_cli_host [] (feed_response 200 (JDict [])))
    1 0 (State [] {[ 0%nat := tcp_no_hostname ]})
  = (Raise (Exn ValueError "Hostname must be specified for TCP interface"),
     State [] {[ 0%nat := tcp_no_hostname ]}).
Proof.
  refine (proj1 (tcp_needs_hostname _ 0
                   (State [] {[ 0%nat := tcp_no_hostname ]}) (VStr "") 0 _ _)
            _);
    reflexivity.
Defined.

(** X3: an interface type that is neither [serial] nor [tcp] ([None]
    included) makes [get_interface] raise [ValueError] at once, before any
    external call and without a retry. *)
Theorem invalid_interface_type (E : Env) (cfg : loc) (st : state)
    (ty : value) (fuel : nat) :
  deref cfg st !! "interface_type" = Some ty ->
  eq_str ty "serial" = false ->
  eq_str ty "tcp" = false ->
  config_init.get_interface E (S fuel) cfg st =
    (Raise (Exn ValueError "Invalid interface type specified in config file"),
     st).
Proof.
  intros Hty Hs Ht. apply get_interface_propagates; [|done].
  unfold config_init.get_interface_attempt, bind, getitem.
  rewrite Hty. simpl. rewrite Hs. rewrite Hty. simpl. by rewrite Ht.
Qed.

Lemma invalid_interface_type_witness :
  config_init.get_interface
    (quiet_env ∅ args_cli_host [] (feed_response 200 (JDict [])))
    1 0 (State [] {[ 0%nat := {[ "interface_type" := VNone ]} ]})
  = (Raise (Exn ValueError "Invalid interface type specified in config file"),
     State [] {[ 0%nat := {[ "interface_type" := VNone ]} ]}).
Proof.
  refine (invalid_interface_type _ 0
            (State [] {[ 0%nat := {[ "interface_type" := VNone ]} ]})
            VNone 0 _ _ _);
    reflexivity.
Defined.

(** One round of waiting on a busy port. *)
Definition busy_round (p : value) (e : exn) : list event :=
  [EvOpen (SerialInterface p);
   EvPrint ("PermissionError: " +:+ exn_str e +:+ ". Retrying in 5 seconds...");
   EvSleep 5].

Lemma count_open_busy_round p e : count is_open (busy_round p e) = 1%nat.
Proof. reflexivity. Qed.

(** X4: when the opening of the configured port fails with
    [PermissionError] exactly [n] times and then succeeds, [get_interface]
    returns the interface, given fuel for [n + 1] rounds, after [n] rounds
    of opening, printing and sleeping 5 seconds and one more opening. *)
Theorem retries_then_opens (E : Env) (cfg : loc) (p : value) (e : exn)
    (n : nat) :
  is_PermissionError e = true ->
  (forall h, sleep E h 5 = Returns tt) ->
  forall (st : state) (fuel : nat),
    deref cfg st !! "interface_type" = Some (VStr "serial") ->
    deref cfg st !! "port" = Some p ->
    truthy p = true ->
    (forall h, (count is_open h < count is_open (trace st) + n)%nat ->
               open_interface E h (SerialInterface p) = Raises e) ->
    (forall h, count is_open h = (count is_open (trace st) + n)%nat ->
               open_interface E h (SerialInterface p) = Returns tt) ->
    (n < fuel)%nat ->
    config_init.get_interface E fuel cfg st =
      (Ret (SerialInterface p),
       State (trace st ++ concat (replicate n (busy_round p e))
              ++ [EvOpen (SerialInterface p)])
             (heap st)).
Proof.
  intros He Hsleep. induction n as [|n IH];
    intros st fuel Hty Hport Hp Hfail Hok Hfuel;
    (destruct fuel as [|fuel]; [lia|]).
  - apply get_interface_returns.
    rewrite (attempt_explicit_port _ _ _ _ Hty Hport Hp), Hok by lia. done.
  - pose proof (attempt_explicit_port E cfg st p Hty Hport Hp) as Hatt.
    rewrite Hfail in Hatt by lia.
    rewrite (get_interface_retries _ _ _ _ _ _ Hatt He), Hsleep. simpl.
    rewrite IH; try done; try lia.
    + simpl. f_equal. f_equal. unfold busy_round.
      rewrite <- !app_assoc. simpl. done.
    + intros h Hh. apply Hfail. revert Hh. simpl.
      rewrite !count_app. unfold count. simpl. lia.
    + intros h Hh. apply Hok. revert Hh. simpl.
      rewrite !count_app. unfold count. simpl. lia.
Qed.

(** An environment in which the port is busy for the first two attempts. *)
Definition busy_twice : Env :=
  {| parse_args := fun _ => Returns args_cli_host;
     config_read := fun _ _ => Returns ∅;
     comports := fun _ => Returns [];
     open_interface := fun h _ =>
       if (count is_open h <? 2)%nat
       then Raises (Exn PermissionError "[Errno 13] Permission denied")
       else Returns tt;
     requests_get := fun _ _ _ => Returns (feed_response 200 (JDict []));
     sendText := fun _ _ _ _ => Returns tt;
     send_message := fun _ _ _ _ => Returns tt;
     close := fun _ _ => Returns tt;
     sleep := fun _ _ => Returns tt;
     py_str := fun _ => "None" |}.

Lemma retries_then_opens_witness :
  config_init.get_interface busy_twice 3 0
    (State [] {[ 0%nat := serial_ttyUSB0 ]})
  = (Ret (SerialInterface (VStr "/dev/ttyUSB0")),
     State (concat
              (replicate 2
                 (busy_round (VStr "/dev/ttyUSB0")
                    (Exn PermissionError "[Errno 13] Permission denied")))
            ++ [EvOpen (SerialInterface (VStr "/dev/ttyUSB0"))])
           {[ 0%nat := serial_ttyUSB0 ]}).
Proof.
  refine (retries_then_opens busy_twice 0 (VStr "/dev/ttyUSB0")
            (Exn PermissionError "[Errno 13] Permission denied") 2
            _ _ (State [] {[ 0%nat := serial_ttyUSB0 ]}) 3 _ _ _ _ _ _);
    try reflexivity.
  - intros h Hh. simpl in *.
    destruct (Nat.ltb_spec (count is_open h) 2); [done|lia].
  - intros h Hh. simpl in *.
    destruct (Nat.ltb_spec (count is_open h) 2); [lia|done].
  - lia.
Defined.



(** * More on the configuration *)

(** The file that [initialize_config] reads. *)
Definition config_path (config_file : option string) : string :=
  match config_file with
  | None => "config.ini"
  | Some f => f
  end.

(** X6: [initialize_config] cannot do without an [interface] section: when
    the file that was read has none, it raises [KeyError]; when the reading
    raises [FileNotFoundError], it prints that it uses default settings and
    then raises the same [KeyError]; any other exception of the reading
    leaves the function at once.  In none of these cases is a dict
    created. *)
Theorem initialize_config_needs_interface_section (E : Env)
    (config_file : option string) (st : state) :
  (forall config,
     config_read E (trace st) (config_path config_file) = Returns config ->
     config !! "interface" = None ->
     config_init.initialize_config E config_file st =
       (Raise (Exn KeyError "'interface'"),
        State (trace st ++ [EvConfigRead (config_path config_file)])
              (heap st)))
  /\ (forall e,
        config_read E (trace st) (config_path config_file) = Raises e ->
        config_init.initialize_config E config_file st =
          if is_FileNotFoundError e then
            (Raise (Exn KeyError "'interface'"),
             State (trace st ++
                    [EvConfigRead (config_path config_file);
                     EvPrint ("Configuration file "
                              +:+ config_path config_file
                              +:+ " not found. Using default settings.")])
                   (heap st))
          else
            (Raise e,
             State (trace st ++ [EvConfigRead (config_path config_file)])
                   (heap st))).
Proof.
  split.
  - intros config Hread Hsec.
    unfold config_init.initialize_config, bind, try_except, call.
    fold (config_path config_file). rewrite Hread. simpl.
    unfold config_init.config_section. by rewrite Hsec.
  - intros e Hread.
    unfold config_init.initialize_config, bind, try_except, call.
    fold (config_path config_file). rewrite Hread. simpl.
    destruct (is_FileNotFoundError e); [|done].
    unfold print, emit. simpl. by rewrite <- app_assoc.
Qed.

Lemma initialize_config_needs_interface_section_witness :
  config_init.initialize_config
    (quiet_env ∅ args_cli_host [] (feed_response 200 (JDict []))) None start
  = (Raise (Exn KeyError "'interface'"),
     State [EvConfigRead "config.ini"] ∅).
Proof.
  refine (proj1 (initialize_config_needs_interface_section
                   (quiet_env ∅ args_cli_host [] (feed_response 200 (JDict [])))
                   None start) ∅ _ _);
    reflexivity.
Defined.

(** [initialize_config] when the four values are there. *)
Lemma initialize_config_run (E : Env) (config_file : option string)
    (st : state) (config : sections) (interface : gmap string (reply string))
    (interface_type hostname port location : value) :
  config_read E (trace st) (config_path config_file) = Returns config ->
  config !! "interface" = Some interface ->
  option_value interface "type" = Returns interface_type ->
  option_value interface "hostname" = Returns hostname ->
  option_value interface "port" = Returns port ->
  location_value config = Returns location ->
  exists l st',
    config_init.initialize_config E config_file st = (Ret l, st')
    /\ heap st !! l = None
    /\ (forall l', l' <> l -> heap st' !! l' = heap st !! l')
    /\ trace st' = trace st ++ [EvConfigRead (config_path config_file)]
    /\ deref l st' = initial_dict config interface_type hostname port location.
Proof.
  intros Hread Hsec Hty Hhost Hport Hloc.
  rewrite (initialize_config_fetches _ _ _ _ _ Hread Hsec).
  rewrite Hty, Hhost, Hport, Hloc. simpl.
  eexists _, _. split; [reflexivity|]. simpl.
  split; [apply not_elem_of_dom, is_fresh|].
  split; [intros l' Hl'; by rewrite lookup_insert_ne|].
  split; [done|]. by rewrite deref_insert_eq.
Qed.

(** [initialize_config] when one of the four values cannot be had. *)
Lemma initialize_config_raises (E : Env) (config_file : option string)
    (st : state) (config : sections) (interface : gmap string (reply string))
    (e : exn) :
  config_read E (trace st) (config_path config_file) = Returns config ->
  config !! "interface" = Some interface ->
  option_value interface "type" = Raises e
  \/ option_value interface "hostname" = Raises e
  \/ option_value interface "port" = Raises e
  \/ location_value config = Raises e ->
  exists e',
    config_init.initialize_config E config_file st =
      (Raise e',
       State (trace st ++ [EvConfigRead (config_path config_file)]) (heap st))
    /\ (option_value interface "type" = Raises e'
        \/ option_value interface "hostname" = Raises e'
        \/ option_value interface "port" = Raises e'
        \/ location_value config = Raises e').
Proof.
  intros Hread Hsec Hraises.
  rewrite (initialize_config_fetches _ _ _ _ _ Hread Hsec). simpl.
  fold (config_path config_file). unfold emit.
  destruct (option_value interface "type") as [it|e1]; [|eauto 6].
  destruct (option_value interface "hostname") as [h|e2]; [|eauto 6].
  destruct (option_value interface "port") as [p|e3]; [|eauto 6].
  destruct (location_value config) as [loc|e4]; [|eauto 7].
  destruct Hraises as [H|[H|[H|H]]]; discriminate.
Qed.

(** X7: when the file has an [interface] section and the parser gives the
    options [type], [hostname] and [port] of that section and the option
    [location] of [weather] (each [None] when the file does not have it),
    [initialize_config] returns a reference that was not in use, leaves the
    dicts that were there alone, and the new dict holds exactly the keys
    [config], [interface_type], [hostname], [port] and [location] with the
    parser and those four values.  When the parser raises for one of the
    four (an interpolation error), [initialize_config] raises such an
    exception right after the reading and creates no dict. *)
Theorem initialize_config_fresh_dict (E : Env) (config_file : option string)
    (st : state) (config : sections)
    (interface : gmap string (reply string)) :
  config_read E (trace st) (config_path config_file) = Returns config ->
  config !! "interface" = Some interface ->
  (forall interface_type hostname port location,
     option_value interface "type" = Returns interface_type ->
     option_value interface "hostname" = Returns hostname ->
     option_value interface "port" = Returns port ->
     location_value config = Returns location ->
     exists l st',
       config_init.initialize_config E config_file st = (Ret l, st')
       /\ heap st !! l = None
       /\ (forall l', l' <> l -> heap st' !! l' = heap st !! l')
       /\ trace st' = trace st ++ [EvConfigRead (config_path config_file)]
       /\ dom (deref l st')
          = {[ "config"; "interface_type"; "hostname"; "port"; "location" ]}
       /\ deref l st' !! "config" = Some (VConfigParser config)
       /\ deref l st' !! "interface_type" = Some interface_type
       /\ deref l st' !! "hostname" = Some hostname
       /\ deref l st' !! "port" = Some port
       /\ deref l st' !! "location" = Some location)
  /\ (forall e,
        option_value interface "type" = Raises e
        \/ option_value interface "hostname" = Raises e
        \/ option_value interface "port" = Raises e
        \/ location_value config = Raises e ->
        exists e',
          config_init.initialize_config E config_file st =
            (Raise e',
             State (trace st ++ [EvConfigRead (config_path config_file)])
                   (heap st))
          /\ (option_value interface "type" = Raises e'
              \/ option_value interface "hostname" = Raises e'
              \/ option_value interface "port" = Raises e'
              \/ location_value config = Raises e')).
Proof.
  intros Hread Hsec. split.
  - intros it h p loc Hty Hhost Hport Hloc.
    destruct (initialize_config_run E config_file st config interface
                it h p loc Hread Hsec Hty Hhost Hport Hloc)
      as (l & st' & Hrun & Hfresh & Hothers & Htrace & Hd).
    exists l, st'. rewrite Hd. unfold initial_dict.
    split; [done|]. split; [done|]. split; [done|]. split; [done|].
    split; [rewrite !dom_insert_L, dom_empty_L; set_solver|].
    repeat split; by rewrite ?lookup_insert_ne, lookup_insert_eq by done.
  - intros e Hraises.
    exact (initialize_config_raises E config_file st config interface e
             Hread Hsec Hraises).
Qed.

Lemma initialize_config_fresh_dict_witness :
  exists l st',
    config_init.initialize_config
      (quiet_env file_tcp args_cli_host [] (feed_response 200 (JDict [])))
      None start = (Ret l, st')
    /\ deref l st' !! "port" = Some VNone.
Proof.
  destruct (proj1 (initialize_config_fresh_dict
                     (quiet_env file_tcp args_cli_host []
                        (feed_response 200 (JDict [])))
                     None start file_tcp
                     {[ "type" := Returns "tcp";
                        "hostname" := Returns "file.example" ]}
                     eq_refl eq_refl)
              (VStr "tcp") (VStr "file.example") VNone VNone
              eq_refl eq_refl eq_refl eq_refl)
    as (l & st' & Hrun & _ & _ & _ & _ & _ & _ & _ & Hport & _).
  exists l, st'. split; [exact Hrun|exact Hport].
Defined.

(** X8: when the parser gives the four values, then after
    [initialize_config] and [merge_config] the interface type, the port and
    the location are those of the CLI when given there and those of the
    file otherwise, whereas [hostname] is always that of the file: [--host]
    ends up under the key [host].  When the parser raises for one of the
    four values of the file, the two calls raise such an exception whatever
    the CLI gives. *)
Theorem cli_overrides_file (E : Env) (config_file : option string)
    (args : Namespace) (st : state) (config : sections)
    (interface : gmap string (reply string)) :
  config_read E (trace st) (config_path config_file) = Returns config ->
  config !! "interface" = Some interface ->
  (forall interface_type hostname port location,
     option_value interface "type" = Returns interface_type ->
     option_value interface "hostname" = Returns hostname ->
     option_value interface "port" = Returns port ->
     location_value config = Returns location ->
     exists l st',
       bind (config_init.initialize_config E config_file)
         (fun system_config => config_init.merge_config system_config args) st
       = (Ret l, st')
       /\ deref l st' !! "interface_type"
          = Some (match args_interface_type args with
                  | Some v => VStr v
                  | None => interface_type
                  end)
       /\ deref l st' !! "port"
          = Some (match args_port args with
                  | Some v => VStr v
                  | None => port
                  end)
       /\ deref l st' !! "location"
          = Some (match args_location args with
                  | Some v => VStr v
                  | None => location
                  end)
       /\ deref l st' !! "hostname" = Some hostname
       /\ deref l st' !! "host" = VStr <$> args_host args)
  /\ (forall e,
        option_value interface "type" = Raises e
        \/ option_value interface "hostname" = Raises e
        \/ option_value interface "port" = Raises e
        \/ location_value config = Raises e ->
        exists e',
          bind (config_init.initialize_config E config_file)
            (fun system_config => config_init.merge_config system_config args)
            st
          = (Raise e',
             State (trace st ++ [EvConfigRead (config_path config_file)])
                   (heap st))).
Proof.
  intros Hread Hsec. split.
  - intros it h p loc Hty Hhost Hport Hloc.
    destruct (initialize_config_run E config_file st config interface
                it h p loc Hread Hsec Hty Hhost Hport Hloc)
      as (l & st1 & Hinit & _ & _ & _ & Hd1).
    destruct (merge_config_run l args st1) as (st2 & Hmerge & _ & _ & Hd2).
    exists l, st2. unfold bind at 1. rewrite Hinit, Hmerge.
    split; [done|]. rewrite Hd2, Hd1. unfold initial_dict.
    repeat split.
    + rewrite !assign_lookup_ne, assign_lookup_eq by done.
      rewrite lookup_insert_ne, lookup_insert_eq by done.
      by destruct (args_interface_type args).
    + rewrite !assign_lookup_ne by done.
      rewrite assign_lookup_eq, assign_lookup_ne by done.
      rewrite !lookup_insert_ne, lookup_insert_eq by done.
      by destruct (args_port args).
    + rewrite assign_lookup_eq, !assign_lookup_ne by done.
      rewrite !lookup_insert_ne, lookup_insert_eq by done.
      by destruct (args_location args).
    + rewrite !assign_lookup_ne by done.
      by rewrite !lookup_insert_ne, lookup_insert_eq by done.
    + rewrite assign_lookup_ne, assign_lookup_eq by done.
      rewrite !assign_lookup_ne by done.
      destruct (args_host args); [done|].
      by rewrite !lookup_insert_ne by done.
  - intros e Hraises.
    destruct (initialize_config_raises E config_file st config interface e
                Hread Hsec Hraises) as (e' & Hrun & _).
    exists e'. unfold bind. by rewrite Hrun.
Qed.

Lemma cli_overrides_file_witness :
  exists l st',
    bind (config_init.initialize_config
            (quiet_env file_tcp args_cli_host [] (feed_response 200 (JDict [])))
            None)
      (fun system_config =>
         config_init.merge_config system_config args_cli_host) start
    = (Ret l, st')
    /\ deref l st' !! "location" = Some (VStr "IL")
    /\ deref l st' !! "hostname" = Some (VStr "file.example").
Proof.
  destruct (proj1 (cli_overrides_file
                     (quiet_env file_tcp args_cli_host []
                        (feed_response 200 (JDict [])))
                     None args_cli_host start file_tcp
                     {[ "type" := Returns "tcp";
                        "hostname" := Returns "file.example" ]}
                     eq_refl eq_refl)
              (VStr "tcp") (VStr "file.example") VNone VNone
              eq_refl eq_refl eq_refl eq_refl)
    as (l & st' & Hrun & _ & _ & Hloc & Hhost & _).
  exists l, st'. split; [exact Hrun|]. split; [exact Hloc|exact Hhost].
Defined.

Lemma assign_idempotent k o (d : dict) : assign k o (assign k o d) = assign k o d.
Proof. destruct o; simpl; [by rewrite insert_insert_eq|done]. Qed.

Lemma assign_commute k1 o1 k2 o2 (d : dict) :
  k1 <> k2 -> assign k1 o1 (assign k2 o2 d) = assign k2 o2 (assign k1 o1 d).
Proof.
  intros Hne. destruct o1, o2; simpl; try done. by apply insert_insert_ne.
Qed.

(** X9: merging the same CLI arguments a second time changes nothing: the
    dict has the same contents after the second merge as after the first. *)
Theorem merge_config_idempotent (system_config : loc) (args : Namespace)
    (st : state) :
  exists st1 st2,
    config_init.merge_config system_config args st = (Ret system_config, st1)
    /\ config_init.merge_config system_config args st1
       = (Ret system_config, st2)
    /\ deref system_config st2 = deref system_config st1
    /\ trace st2 = trace st.
Proof.
  destruct (merge_config_run system_config args st)
    as (st1 & Hrun1 & Ht1 & _ & Hd1).
  destruct (merge_config_run system_config args st1)
    as (st2 & Hrun2 & Ht2 & _ & Hd2).
  exists st1, st2. split; [done|]. split; [done|].
  split; [|congruence].
  rewrite Hd2, Hd1.
  set (d := deref system_config st).
  rewrite (assign_commute "interface_type" _ "location") by done.
  rewrite (assign_commute "interface_type" _ "host") by done.
  rewrite (assign_commute "interface_type" _ "port") by done.
  rewrite assign_idempotent.
  rewrite (assign_commute "port" _ "location") by done.
  rewrite (assign_commute "port" _ "host") by done.
  rewrite assign_idempotent.
  rewrite (assign_commute "host" _ "location") by done.
  rewrite assign_idempotent.
  by rewrite assign_idempotent.
Qed.

(** * Broadcasting a list of alerts *)

Definition is_send_message (ev : event) : bool :=
  match ev with EvSendMessage _ _ _ => true | _ => false end.

(** The properties that [format_alert_message] works with: those of the
    alert, an empty dict when the alert has none, nothing when the alert or
    its properties are not a dict. *)
Definition alert_props (alert : json) : option (list (string * json)) :=
  match alert with
  | JDict a =>
      match assoc "properties" a with
      | None => Some []
      | Some (JDict p) => Some p
      | Some _ => None
      end
  | _ => None
  end.

(** The message of [format_alert_message] for such an alert. *)
Definition alert_text (E : Env) (alert : json) : string :=
  match alert_props alert with
  | Some p =>
      template_message_processing
        (field_or E p "headline" "No headline")
        (field_or E p "description" "No description")
        (field_or E p "instruction" "No instruction")
  | None => ""
  end.

(** What [message_processing.broadcast_weather_alerts] does with one alert
    of the list. *)
Definition send_alert (E : Env) (i : interface) (alert : json) : M unit :=
  message <- message_processing.format_alert_message E alert ;;
  message_processing.utils_send_message E message BROADCAST_NUM i.

Lemma format_alert_message_ok E alert st :
  is_Some (alert_props alert) ->
  message_processing.format_alert_message E alert st
  = (Ret (alert_text E alert), st).
Proof.
  intros [p Hp]. unfold alert_text. rewrite Hp.
  destruct alert as [| | | | | |a]; try discriminate. simpl in Hp.
  apply format_alert_message_run. unfold properties_of.
  destruct (assoc "properties" a) as [[| | | | | |p']|]; try discriminate.
  - left. congruence.
  - right. split; congruence.
Qed.

Lemma send_alert_run E i alert st :
  is_Some (alert_props alert) ->
  send_alert E i alert st =
    (of_reply (send_message E (trace st) (alert_text E alert) BROADCAST_NUM i),
     State (trace st ++ [EvSendMessage (alert_text E alert) BROADCAST_NUM i])
           (heap st)).
Proof.
  intros Hok. unfold send_alert, bind.
  rewrite (format_alert_message_ok _ _ _ Hok).
  unfold message_processing.utils_send_message, call, emit.
  by destruct (send_message E _ _ _ _) as [[]|e].
Qed.

(** The alerts go out in the order of the list as long as the sending
    succeeds. *)
Lemma send_alerts_all E i alerts :
  (forall h m, send_message E h m BROADCAST_NUM i = Returns tt) ->
  Forall (fun a => is_Some (alert_props a)) alerts ->
  forall st,
    for_each alerts (send_alert E i) st =
      (Ret tt,
       State (trace st ++
              map (fun a => EvSendMessage (alert_text E a) BROADCAST_NUM i)
                alerts)
             (heap st)).
Proof.
  intros Hsend. induction 1 as [|a alerts Ha _ IH]; intros st; simpl.
  - unfold ret. destruct st. simpl. by rewrite app_nil_r.
  - unfold bind at 1. rewrite (send_alert_run _ _ _ _ Ha), Hsend. simpl.
    rewrite IH. simpl. by rewrite <- app_assoc.
Qed.

(** The first failure of the sending ends the round: what comes after the
    failed alert in the list is not sent. *)
Lemma send_alerts_abort E i e pre a post :
  Forall (fun a => is_Some (alert_props a)) pre ->
  is_Some (alert_props a) ->
  forall st,
    (forall h m,
       (count is_send_message h
        < count is_send_message (trace st) + length pre)%nat ->
       send_message E h m BROADCAST_NUM i = Returns tt) ->
    (forall h m,
       count is_send_message h
       = (count is_send_message (trace st) + length pre)%nat ->
       send_message E h m BROADCAST_NUM i = Raises e) ->
    for_each (pre ++ a :: post) (send_alert E i) st =
      (Raise e,
       State (trace st ++
              map (fun a => EvSendMessage (alert_text E a) BROADCAST_NUM i)
                (pre ++ [a]))
             (heap st)).
Proof.
  intros Hpre Ha. induction Hpre as [|b pre Hb _ IH]; intros st Hok Hfail;
    simpl.
  - unfold bind. rewrite (send_alert_run _ _ _ _ Ha), Hfail by (simpl; lia).
    done.
  - unfold bind at 1. rewrite (send_alert_run _ _ _ _ Hb), Hok by (simpl; lia).
    simpl. rewrite IH.
    + simpl. by rewrite <- app_assoc.
    + intros h m Hh. apply Hok. revert Hh. simpl.
      rewrite count_app. unfold count. simpl. lia.
    + intros h m Hh. apply Hfail. revert Hh. simpl.
      rewrite count_app. unfold count. simpl. lia.
Qed.

Lemma broadcast_fetched E i state st r body alerts :
  requests_get E (trace st) (message_processing.WEATHER_API_URL state) []
    = Returns r ->
  status_code r = 200%Z ->
  json_body r = Returns (JDict body) ->
  assoc "features" body = Some (JList alerts) ->
  message_processing.broadcast_weather_alerts E i state st =
    for_each alerts (send_alert E i)
      (State (trace st ++
              [EvGet (message_processing.WEATHER_API_URL state) []])
             (heap st)).
Proof.
  intros Hget Hstatus Hjson Hfeatures.
  unfold message_processing.broadcast_weather_alerts,
    message_processing.fetch_weather_alerts, bind, get, call.
  rewrite Hget, Hstatus. simpl. unfold json_of. rewrite Hjson. simpl.
  rewrite Hfeatures. reflexivity.
Qed.

(** X10: when the feed gives a list of alerts whose properties are dicts or
    missing and every sending succeeds,
    [message_processing.broadcast_weather_alerts] makes one request and then
    one call of [send_message] per alert, in the order of the feed, each
    with the message of that alert and [BROADCAST_NUM], and returns. *)
Theorem broadcast_sends_each_alert (E : Env) (i : interface) (st : state)
    (state : string) (r : response) (body : list (string * json))
    (alerts : list json) :
  requests_get E (trace st) (message_processing.WEATHER_API_URL state) []
    = Returns r ->
  status_code r = 200%Z ->
  json_body r = Returns (JDict body) ->
  assoc "features" body = Some (JList alerts) ->
  Forall (fun a => is_Some (alert_props a)) alerts ->
  (forall h m, send_message E h m BROADCAST_NUM i = Returns tt) ->
  message_processing.broadcast_weather_alerts E i state st =
    (Ret tt,
     State (trace st ++
            EvGet (message_processing.WEATHER_API_URL state) []
            :: map (fun a => EvSendMessage (alert_text E a) BROADCAST_NUM i)
                 alerts)
           (heap st)).
Proof.
  intros Hget Hstatus Hjson Hfeatures Hok Hsend.
  rewrite (broadcast_fetched _ _ _ _ _ _ _ Hget Hstatus Hjson Hfeatures).
  rewrite (send_alerts_all _ _ _ Hsend Hok). simpl.
  by rewrite <- app_assoc.
Qed.

(** Two alerts: one without properties, one with a headline only. *)
Definition two_alerts : list json :=
  [JDict []; JDict [("properties", JDict [("headline", JStr "Flood Warning")])]].

Definition feed_two_alerts : response :=
  feed_response 200 (JDict [("features", JList two_alerts)]).

Lemma broadcast_sends_each_alert_witness :
  message_processing.broadcast_weather_alerts
    (quiet_env file_tcp args_cli_host [] feed_two_alerts) radio "IL" start
  = (Ret tt,
     State [EvGet "https://api.weather.gov/alerts/active/area/IL" [];
            EvSendMessage
              (template_message_processing "No headline" "No description"
                 "No instruction") BROADCAST_NUM radio;
            EvSendMessage
              (template_message_processing "Flood Warning" "No description"
                 "No instruction") BROADCAST_NUM radio] ∅).
Proof.
  refine (broadcast_sends_each_alert
            (quiet_env file_tcp args_cli_host [] feed_two_alerts) radio start
            "IL" feed_two_alerts [("features", JList two_alerts)] two_alerts
            _ _ _ _ _ _);
    try reflexivity.
  repeat constructor; eexists; reflexivity.
Defined.

(** X11: the alerts of a round are not shielded from one another: when the
    sending fails for an alert, the exception leaves
    [message_processing.broadcast_weather_alerts] and the alerts that come
    after it in the feed are not sent in that round. *)
Theorem broadcast_stops_at_first_failure (E : Env) (i : interface)
    (st : state) (state : string) (r : response)
    (body : list (string * json)) (pre post : list json) (a : json)
    (e : exn) :
  requests_get E (trace st) (message_processing.WEATHER_API_URL state) []
    = Returns r ->
  status_code r = 200%Z ->
  json_body r = Returns (JDict body) ->
  assoc "features" body = Some (JList (pre ++ a :: post)) ->
  Forall (fun a => is_Some (alert_props a)) pre ->
  is_Some (alert_props a) ->
  (forall h m,
     (count is_send_message h
      < count is_send_message (trace st) + length pre)%nat ->
     send_message E h m BROADCAST_NUM i = Returns tt) ->
  (forall h m,
     count is_send_message h
     = (count is_send_message (trace st) + length pre)%nat ->
     send_message E h m BROADCAST_NUM i = Raises e) ->
  message_processing.broadcast_weather_alerts E i state st =
    (Raise e,
     State (trace st ++
            EvGet (message_processing.WEATHER_API_URL state) []
            :: map (fun a => EvSendMessage (alert_text E a) BROADCAST_NUM i)
                 (pre ++ [a]))
           (heap st)).
Proof.
  intros Hget Hstatus Hjson Hfeatures Hpre Ha Hok Hfail.
  rewrite (broadcast_fetched _ _ _ _ _ _ _ Hget Hstatus Hjson Hfeatures).
  rewrite (send_alerts_abort E i e pre a post Hpre Ha).
  - simpl. by rewrite <- app_assoc.
  - intros h m Hh. apply Hok. revert Hh. simpl.
    rewrite count_app. unfold count. simpl. lia.
  - intros h m Hh. apply Hfail. revert Hh. simpl.
    rewrite count_app. unfold count. simpl. lia.
Qed.

(** An environment whose radio rejects every message. *)
Definition rejecting_env (r : response) : Env :=
  {| parse_args := fun _ => Returns args_cli_host;
     config_read := fun _ _ => Returns file_tcp;
     comports := fun _ => Returns [];
     open_interface := fun _ _ => Returns tt;
     requests_get := fun _ _ _ => Returns r;
     sendText := fun _ _ _ _ => Returns tt;
     send_message := fun _ _ _ _ =>
       Raises (Exn (OtherException "MeshInterfaceError") "not connected");
     close := fun _ _ => Returns tt;
     sleep := fun _ _ => Returns tt;
     py_str := fun _ => "None" |}.

Lemma broadcast_stops_at_first_failure_witness :
  message_processing.broadcast_weather_alerts
    (rejecting_env feed_two_alerts) radio "IL" start
  = (Raise (Exn (OtherException "MeshInterfaceError") "not connected"),
     State [EvGet "https://api.weather.gov/alerts/active/area/IL" [];
            EvSendMessage
              (template_message_processing "No headline" "No description"
                 "No instruction") BROADCAST_NUM radio] ∅).
Proof.
  refine (broadcast_stops_at_first_failure
            (rejecting_env feed_two_alerts) radio start "IL" feed_two_alerts
            [("features", JList two_alerts)] []
            [JDict [("properties", JDict [("headline", JStr "Flood Warning")])]]
            (JDict [])
            (Exn (OtherException "MeshInterfaceError") "not connected")
            _ _ _ _ _ _ _ _);
    try reflexivity.
  - constructor.
  - eexists; reflexivity.
  - intros h m Hh. simpl in Hh. lia.
Defined.

(** * More on server.py *)

(** The three fields that [server.broadcast_alerts] reads from an alert,
    when they are all there. *)
Definition server_fields (alert : json) : option (json * json * json) :=
  match alert with
  | JDict a =>
      match assoc "properties" a with
      | Some (JDict p) =>
          match assoc "event" p, assoc "headline" p, assoc "description" p with
          | Some e, Some h, Some d => Some (e, h, d)
          | _, _, _ => None
          end
      | _ => None
      end
  | _ => None
  end.

Definition server_text (E : Env) (alert : json) : string :=
  match server_fields alert with
  | Some (e, h, d) =>
      template_server (format_json E e) (format_json E h) (format_json E d)
  | None => ""
  end.

(** The two calls that [server.broadcast_alerts] makes for an alert. *)
Definition server_events (E : Env) (i : interface) (alert : json)
    : list event :=
  [EvLog INFO ("Broadcasting message: " +:+ server_text E alert);
   EvSendText i (server_text E alert) (Some BROADCAST_NUM)].

Lemma server_broadcast_cons E alert alerts i st :
  server.broadcast_alerts E (JList (alert :: alerts)) i st =
    match server.broadcast_alerts E (JList [alert]) i st with
    | (Ret _, st') => server.broadcast_alerts E (JList alerts) i st'
    | r => r
    end.
Proof.
  unfold server.broadcast_alerts, bind. simpl. unfold bind.
  destruct (json_getitem alert "properties" st) as [[p|e|] st1]; [|done..].
  destruct (json_getitem p "event" st1) as [[ev|e|] st2]; [|done..].
  destruct (json_getitem p "headline" st2) as [[h|e|] st3]; [|done..].
  destruct (json_getitem p "description" st3) as [[d|e|] st4]; [|done..].
  unfold logging. simpl.
  destruct (interface_sendText E i _ _ _) as [[[]|e|] st6]; done.
Qed.

Lemma server_broadcast_complete E alert i st :
  is_Some (server_fields alert) ->
  server.broadcast_alerts E (JList [alert]) i st =
    (of_reply
       (sendText E
          (trace st ++
           [EvLog INFO ("Broadcasting message: " +:+ server_text E alert)])
          i (server_text E alert) (Some BROADCAST_NUM)),
     State (trace st ++ server_events E i alert) (heap st)).
Proof.
  intros [[[e h] d] Hf]. unfold server_events, server_text. rewrite Hf.
  destruct alert as [| | | | | |a]; try discriminate. simpl in Hf.
  destruct (assoc "properties" a) as [[| | | | | |p]|] eqn:Hp;
    try discriminate.
  destruct (assoc "event" p) as [e'|] eqn:He; [|discriminate].
  destruct (assoc "headline" p) as [h'|] eqn:Hh; [|discriminate].
  destruct (assoc "description" p) as [d'|] eqn:Hd; [|discriminate].
  injection Hf as -> -> ->.
  exact (server_broadcast_one E i st a p e h d Hp He Hh Hd).
Qed.

(** X12: when every alert of the list has the three fields and every sending
    succeeds, [server.broadcast_alerts] logs and sends each alert once, in
    the order of the list and with [BROADCAST_NUM], and returns. *)
Theorem server_broadcasts_each_alert (E : Env) (i : interface)
    (alerts : list json) :
  (forall h m, sendText E h i m (Some BROADCAST_NUM) = Returns tt) ->
  Forall (fun a => is_Some (server_fields a)) alerts ->
  forall st,
    server.broadcast_alerts E (JList alerts) i st =
      (Ret tt,
       State (trace st ++ concat (map (server_events E i) alerts)) (heap st)).
Proof.
  intros Hsend. induction 1 as [|a alerts Ha _ IH]; intros st.
  - simpl. destruct st. unfold server.broadcast_alerts, bind, ret. simpl.
    by rewrite app_nil_r.
  - rewrite server_broadcast_cons, (server_broadcast_complete _ _ _ _ Ha).
    rewrite Hsend. simpl. rewrite IH. simpl. by rewrite <- !app_assoc.
Qed.

Lemma server_broadcasts_each_alert_witness :
  server.broadcast_alerts
    (quiet_env file_tcp args_cli_host [] feed_tornado)
    (JList [JDict alert_tornado; JDict alert_tornado]) radio start
  = (Ret tt,
     State (concat
              (map (server_events
                      (quiet_env file_tcp args_cli_host [] feed_tornado) radio)
                 [JDict alert_tornado; JDict alert_tornado])) ∅).
Proof.
  refine (server_broadcasts_each_alert
            (quiet_env file_tcp args_cli_host [] feed_tornado) radio
            [JDict alert_tornado; JDict alert_tornado] _ _ start).
  - reflexivity.
  - repeat constructor; eexists; reflexivity.
Defined.

(** X13: an alert whose properties lack one of [event], [headline] and
    [description] makes [server.broadcast_alerts] raise [KeyError] before
    anything is logged or sent for it; the alerts before it in the list have
    been sent, those after it are not. *)
Theorem server_broadcast_missing_field (E : Env) (i : interface)
    (pre post : list json) (bad props : list (string * json)) :
  (forall h m, sendText E h i m (Some BROADCAST_NUM) = Returns tt) ->
  Forall (fun a => is_Some (server_fields a)) pre ->
  assoc "properties" bad = Some (JDict props) ->
  server_fields (JDict bad) = None ->
  forall st,
    exists k,
      k ∈ ["event"; "headline"; "description"]
      /\ assoc k props = None
      /\ server.broadcast_alerts E (JList (pre ++ JDict bad :: post)) i st =
           (Raise (Exn KeyError (quoted k)),
            State (trace st ++ concat (map (server_events E i) pre))
                  (heap st)).
Proof.
  intros Hsend Hpre Hprops Hbad.
  induction Hpre as [|a pre Ha _ IH]; intros st.
  - simpl. unfold server_fields in Hbad. rewrite Hprops in Hbad.
    unfold server.broadcast_alerts, bind. simpl. rewrite Hprops. simpl.
    rewrite app_nil_r.
    destruct (assoc "event" props) eqn:He; simpl.
    2:{ exists "event". destruct st. repeat split; [set_solver|done]. }
    destruct (assoc "headline" props) eqn:Hh; simpl.
    2:{ exists "headline". destruct st. repeat split; [set_solver|done]. }
    destruct (assoc "description" props) eqn:Hd; simpl; [discriminate|].
    exists "description". destruct st. repeat split; [set_solver|done].
  - simpl. rewrite server_broadcast_cons.
    rewrite (server_broadcast_complete _ _ _ _ Ha), Hsend. simpl.
    destruct (IH (State (trace st ++ server_events E i a) (heap st)))
      as (k & Hk & Hnone & Hrun).
    exists k. split; [done|]. split; [done|].
    rewrite Hrun. simpl. by rewrite <- !app_assoc.
Qed.

Lemma server_broadcast_missing_field_witness :
  exists k,
    k ∈ ["event"; "headline"; "description"]
    /\ assoc k [("event", JStr "Flood Warning")] = None
    /\ server.broadcast_alerts
         (quiet_env file_tcp args_cli_host [] feed_tornado)
         (JList ([JDict alert_tornado]
                 ++ JDict [("properties", JDict [("event", JStr "Flood Warning")])]
                 :: [JDict alert_tornado]))
         radio start
       = (Raise (Exn KeyError (quoted k)),
          State ([] ++ concat
                         (map (server_events
                                 (quiet_env file_tcp args_cli_host []
                                    feed_tornado) radio)
                            [JDict alert_tornado])) ∅).
Proof.
  refine (server_broadcast_missing_field
            (quiet_env file_tcp args_cli_host [] feed_tornado) radio
            [JDict alert_tornado] [JDict alert_tornado]
            [("properties", JDict [("event", JStr "Flood Warning")])]
            [("event", JStr "Flood Warning")] _ _ _ _ start).
  - reflexivity.
  - repeat constructor; eexists; reflexivity.
  - reflexivity.
  - reflexivity.
Defined.

(** [body.get('features', [])] *)
Definition features_of (body : list (string * json)) : json :=
  match assoc "features" body with
  | Some v => v
  | None => JList []
  end.

Lemma server_fetch_run E state st r body :
  requests_get E (trace st)
    ("https://api.weather.gov/alerts/active/area/" +:+ format_value state) []
    = Returns r ->
  ((400 <=? status_code r)%Z && (status_code r <? 600)%Z) = false ->
  json_body r = Returns (JDict body) ->
  server.fetch_weather_alerts E state st =
    (Ret (features_of body),
     State (trace st ++
            [EvGet ("https://api.weather.gov/alerts/active/area/"
                    +:+ format_value state) []])
           (heap st)).
Proof.
  intros Hget Hstatus Hjson.
  unfold server.fetch_weather_alerts, bind, get, call.
  rewrite Hget. unfold raise_for_status.
  assert (((400 <=? status_code r)%Z && (status_code r <? 500)%Z) = false)
    as -> by lia.
  assert (((500 <=? status_code r)%Z && (status_code r <? 600)%Z) = false)
    as -> by lia.
  simpl. unfold json_of. rewrite Hjson. simpl. unfold features_of.
  by destruct (assoc "features" body).
Qed.

(** X14: [server.fetch_weather_alerts] takes every status below 400 or above
    599 for a success: it returns the [features] of the decoded body, or the
    empty list when the body has none, whatever the status. *)
Theorem server_fetch_accepts_other_statuses (E : Env) (st : state)
    (state : value) (r : response) (body : list (string * json)) :
  requests_get E (trace st)
    ("https://api.weather.gov/alerts/active/area/" +:+ format_value state) []
    = Returns r ->
  ((status_code r < 400)%Z \/ (600 <= status_code r)%Z) ->
  json_body r = Returns (JDict body) ->
  server.fetch_weather_alerts E state st =
    (Ret (features_of body),
     State (trace st ++
            [EvGet ("https://api.weather.gov/alerts/active/area/"
                    +:+ format_value state) []])
           (heap st)).
Proof.
  intros Hget Hstatus Hjson.
  apply (server_fetch_run E state st r body); [done|lia|done].
Qed.

Lemma server_fetch_accepts_other_statuses_witness :
  server.fetch_weather_alerts
    (quiet_env file_tcp args_cli_host [] (feed_response 204 (JDict [])))
    (VStr "IL") start
  = (Ret (JList []),
     State [EvGet "https://api.weather.gov/alerts/active/area/IL" []] ∅).
Proof.
  refine (server_fetch_accepts_other_statuses
            (quiet_env file_tcp args_cli_host [] (feed_response 204 (JDict [])))
            start (VStr "IL") (feed_response 204 (JDict [])) [] _ _ _);
    [reflexivity|left; reflexivity|reflexivity].
Defined.

(** A round of the loop of [server.main] without alerts. *)
Definition idle_round (state : value) : list event :=
  [EvGet ("https://api.weather.gov/alerts/active/area/" +:+ format_value state)
     [];
   EvLog INFO "No active alerts at the moment.";
   EvSleep 600].

(** X15: as long as the feed answers with a body that has no alerts and the
    sleeps are not interrupted, each round of the loop of [server.main]
    makes one request, logs that there are no active alerts and sleeps 600
    seconds, sends nothing, and the loop does not end. *)
Theorem server_loop_idle (E : Env) (i : interface) (state : value)
    (r : response) (body : list (string * json)) :
  (forall h,
     requests_get E h
       ("https://api.weather.gov/alerts/active/area/" +:+ format_value state)
       [] = Returns r) ->
  ((status_code r < 400)%Z \/ (600 <= status_code r)%Z) ->
  json_body r = Returns (JDict body) ->
  json_truthy (features_of body) = false ->
  (forall h, sleep E h 600 = Returns tt) ->
  forall fuel st,
    server.main_loop E fuel i state st =
      (Diverge,
       State (trace st ++ concat (replicate fuel (idle_round state)))
             (heap st)).
Proof.
  intros Hget Hstatus Hjson Hempty Hsleep.
  induction fuel as [|fuel IH]; intros st.
  - simpl. unfold diverge. destruct st. simpl. by rewrite app_nil_r.
  - simpl. unfold bind at 1.
    rewrite (server_fetch_run E state st r body (Hget _)) by (done || lia).
    rewrite Hempty. unfold bind, logging, time_sleep, call, emit. simpl.
    rewrite Hsleep, IH. simpl. by rewrite <- !app_assoc.
Qed.

Lemma server_loop_idle_witness :
  server.main_loop
    (quiet_env file_tcp args_cli_host [] (feed_response 200 (JDict [])))
    2 radio (VStr "IL") start
  = (Diverge,
     State ([] ++ concat (replicate 2 (idle_round (VStr "IL")))) ∅).
Proof.
  refine (server_loop_idle
            (quiet_env file_tcp args_cli_host [] (feed_response 200 (JDict [])))
            radio (VStr "IL") (feed_response 200 (JDict [])) []
            _ _ _ _ _ 2 start);
    try reflexivity.
  left. reflexivity.
Defined.

(** * More on the alerts of config_init.py *)

(** X16: in [config_init], a round whose request is answered with a status
    other than 200 prints the failure with the status, then prints that
    there are no weather alerts to broadcast, sends nothing and returns. *)
Theorem config_init_round_without_feed (E : Env) (i : interface)
    (location : value) (st : state) (r : response) :
  requests_get E (trace st)
    ("https://api.weather.gov/alerts/active/area/" +:+ format_value location)
    [("User-Agent",
      "MeshtasticWeatherAlertSystem/1.0 (your_email@example.com)")]
    = Returns r ->
  status_code r <> 200%Z ->
  bind (config_init.fetch_weather_alerts E location)
    (fun alerts => config_init.broadcast_weather_alerts E i alerts) st =
    (Ret tt,
     State (trace st ++
            [EvGet ("https://api.weather.gov/alerts/active/area/"
                    +:+ format_value location)
               [("User-Agent",
                 "MeshtasticWeatherAlertSystem/1.0 (your_email@example.com)")];
             EvPrint ("Failed to fetch weather alerts: "
                      +:+ str_int (status_code r));
             EvPrint "No weather alerts to broadcast."])
           (heap st)).
Proof.
  intros Hget Hstatus.
  assert ((status_code r =? 200)%Z = false) as Hne by lia.
  unfold bind at 1.
  unfold config_init.fetch_weather_alerts, bind, get, call.
  rewrite Hget, Hne. unfold print, ret, emit. simpl.
  unfold config_init.broadcast_weather_alerts, bind, print, ret, emit. simpl.
  by rewrite <- !app_assoc.
Qed.

Lemma config_init_round_without_feed_witness :
  bind (config_init.fetch_weather_alerts
          (quiet_env file_tcp args_cli_host [] not_found) (VStr "IL"))
    (fun alerts =>
       config_init.broadcast_weather_alerts
         (quiet_env file_tcp args_cli_host [] not_found) radio alerts) start
  = (Ret tt,
     State ([] ++
            [EvGet ("https://api.weather.gov/alerts/active/area/"
                    +:+ format_value (VStr "IL"))
               [("User-Agent",
                 "MeshtasticWeatherAlertSystem/1.0 (your_email@example.com)")];
             EvPrint ("Failed to fetch weather alerts: " +:+ str_int 404);
             EvPrint "No weather alerts to broadcast."])
           ∅).
Proof.
  refine (config_init_round_without_feed
            (quiet_env file_tcp args_cli_host [] not_found) radio (VStr "IL")
            start not_found _ _);
    [reflexivity|vm_compute; discriminate].
Defined.

Lemma only_config_init_fetch E d P location :
  (forall u h, P (EvGet u h)) -> (forall m, P (EvPrint m)) ->
  only d any_exn P (config_init.fetch_weather_alerts E location).
Proof.
  intros Hget Hprint. unfold config_init.fetch_weather_alerts, get. only_auto.
Qed.

Lemma only_config_init_broadcast E d P i alerts :
  (forall i t dst, P (EvSendText i t dst)) -> (forall m, P (EvPrint m)) ->
  only d any_exn P (config_init.broadcast_weather_alerts E i alerts).
Proof.
  intros Hsend Hprint.
  unfold config_init.broadcast_weather_alerts, interface_sendText. only_auto.
Qed.

Lemma config_init_main_loop_runs E fuel cfg i :
  runs not_close (fun r => r <> Ret tt) (config_init.main_loop E fuel cfg i).
Proof.
  induction fuel as [|fuel IH]; simpl.
  - by apply runs_diverge.
  - eapply runs_bind with (Q1 := ends true any_exn); try done.
    { by apply only_getitem. }
    intros location _.
    eapply runs_bind;
      [apply (only_config_init_fetch E true not_close); done| | |]; try done.
    intros alerts _.
    eapply runs_bind;
      [apply (only_config_init_broadcast E true not_close); done| | |];
      try done.
    intros _ _.
    eapply runs_bind;
      [apply (only_time_sleep E true not_close); done| | |]; try done.
Qed.

(** X17: [config_init.main] never returns normally and never closes the
    interface: its loop has no handler, so it ends only with the exception
    that a round (or the startup) raises. *)
Theorem config_init_main_never_closes (E : Env) (fuel : nat) (st : state) :
  exists evs,
    trace (config_init.main E fuel st).2 = trace st ++ evs
    /\ Forall (fun ev => is_close ev = false) evs
    /\ (config_init.main E fuel st).1 <> Ret tt.
Proof.
  assert (forall A (m : M A),
            only true any_exn startup_event m ->
            only true any_exn not_close m) as Hweak.
  { intros A m Hm. eapply runs_weaken; [exact Hm| |done].
    by intros []. }
  assert (runs not_close (fun r => r <> Ret tt) (config_init.main E fuel))
    as Hruns.
  { unfold config_init.main.
    eapply runs_bind; [apply Hweak, only_init_cli_parser| | |]; try done.
    intros args _.
    eapply runs_bind; [apply Hweak, only_initialize_config| | |]; try done.
    intros config _.
    eapply runs_bind;
      [apply (only_merge_config true any_exn not_close)| | |]; try done.
    intros cfg _.
    eapply runs_bind; [apply Hweak, only_get_interface| | |]; try done.
    intros i _. apply config_init_main_loop_runs. }
  exact (Hruns st).
Qed.

(** * More on message_processing.py *)

(** X18: [format_alert_message] makes no external call and changes nothing;
    it returns exactly when the alert is a dict whose [properties] are a
    dict or are missing, and otherwise the exception it raises is an
    [AttributeError]. *)
Theorem format_alert_message_pure (E : Env) (alert : json) (st : state) :
  (message_processing.format_alert_message E alert st).2 = st
  /\ match (message_processing.format_alert_message E alert st).1 with
     | Ret m => is_Some (alert_props alert) /\ m = alert_text E alert
     | Raise e => alert_props alert = None /\ exn_cls e = AttributeError
     | Diverge => False
     end.
Proof.
  destruct (alert_props alert) as [p|] eqn:Hp.
  - rewrite format_alert_message_ok by eauto. simpl.
    unfold alert_text. rewrite Hp. eauto.
  - unfold message_processing.format_alert_message, bind.
    destruct alert as [| | | | | |a]; simpl; try done.
    simpl in Hp.
    destruct (assoc "properties" a) as [[| | | | | |p]|]; simpl;
      done.
Qed.

(** ** Incoming packets *)

(** The values of a packet of the radio library: a packet is a dict whose
    values are numbers, strings, bytes or dicts again. *)
Inductive pyobj : Type :=
| PNone
| PInt (z : Z)
| PStr (s : string)
| PBytes (b : list Byte.byte)
| PDict (d : list (string * pyobj)).

Fixpoint passoc (k : string) (d : list (string * pyobj)) : option pyobj :=
  match d with
  | [] => None
  | (k', v) :: d' => if k' =? k then Some v else passoc k d'
  end.

(** [type(x).__name__] *)
Definition ptype_name (x : pyobj) : string :=
  match x with
  | PNone => "NoneType"
  | PInt _ => "int"
  | PStr _ => "str"
  | PBytes _ => "bytes"
  | PDict _ => "dict"
  end.

(** [x[k]] for a string [k] *)
Definition pgetitem (x : pyobj) (k : string) : M pyobj :=
  match x with
  | PDict d =>
      match passoc k d with
      | Some v => ret v
      | None => raise KeyError (quoted k)
      end
  | PStr _ => raise TypeError "string indices must be integers, not 'str'"
  | PBytes _ =>
      raise TypeError "byte indices must be integers or slices, not str"
  | _ => raise TypeError ("'" ++ ptype_name x ++ "' object is not subscriptable")
  end.

(** [except KeyError] *)
Definition is_KeyError (e : exn) : bool :=
  match exn_cls e with KeyError => true | _ => false end.

Section Receive.

(** Whether a sequence of bytes is UTF-8, which decides whether
    [bytes.decode('utf-8')] returns. *)
Variable utf8 : list Byte.byte -> bool.

(** [message_bytes.decode('utf-8')]; the decoded text is the same bytes. *)
Definition decode (x : pyobj) : M string :=
  match x with
  | PBytes b =>
      if utf8 b then ret (string_of_list_byte b)
      else raise (OtherException "UnicodeDecodeError")
             "'utf-8' codec can't decode bytes"
  | _ =>
      raise AttributeError
        ("'" ++ ptype_name x ++ "' object has no attribute 'decode'")
  end.

(** [get_node_short_name(sender_node_id, interface)]: the module neither
    defines nor imports this name, so the call raises [NameError]. *)
Definition get_node_short_name (sender_node_id : pyobj) (i : interface)
    : M string :=
  raise (OtherException "NameError")
    "name 'get_node_short_name' is not defined".

(** [on_receive(packet, interface)] for a packet that is a dict *)
Definition on_receive (packet : list (string * pyobj)) (i : interface)
    : M unit :=
  try_except
    (is_text <-
       (match passoc "decoded" packet with
        | Some _ =>
            decoded <- pgetitem (PDict packet) "decoded" ;;
            portnum <- pgetitem decoded "portnum" ;;
            ret (match portnum with
                 | PStr s => s =? "TEXT_MESSAGE_APP"
                 | _ => false
                 end)
        | None => ret false
        end) ;;
     if is_text then
       decoded <- pgetitem (PDict packet) "decoded" ;;
       message_bytes <- pgetitem decoded "payload" ;;
       message_string <- decode message_bytes ;;
       sender_id <- pgetitem (PDict packet) "from" ;;
       sender_node_id <- pgetitem (PDict packet) "fromId" ;;
       sender_short_name <- get_node_short_name sender_node_id i ;;
       logging INFO ("Received message from '" ++ sender_short_name ++ "': "
                     ++ message_string)
     else ret tt)
    is_KeyError
    (fun e => logging ERROR ("Error processing packet: " ++ exn_str e)).

End Receive.

(** A packet is a text message when its [decoded] is a dict whose
    [portnum] is [TEXT_MESSAGE_APP]. *)
Definition text_packet (packet : list (string * pyobj))
    (decoded : list (string * pyobj)) : Prop :=
  passoc "decoded" packet = Some (PDict decoded)
  /\ passoc "portnum" decoded = Some (PStr "TEXT_MESSAGE_APP").

(** X19: [on_receive] never gets as far as logging a received text message:
    for a text packet with a UTF-8 payload and both sender fields it raises
    [NameError], because [get_node_short_name] is not defined in the module,
    and [except KeyError] does not catch that. *)
Theorem on_receive_text_message_NameError (utf8 : list Byte.byte -> bool)
    (packet decoded : list (string * pyobj)) (payload : list Byte.byte)
    (sender_id sender_node_id : pyobj) (i : interface) (st : state) :
  text_packet packet decoded ->
  passoc "payload" decoded = Some (PBytes payload) ->
  utf8 payload = true ->
  passoc "from" packet = Some sender_id ->
  passoc "fromId" packet = Some sender_node_id ->
  on_receive utf8 packet i st =
    (Raise (Exn (OtherException "NameError")
              "name 'get_node_short_name' is not defined"),
     st).
Proof.
  intros [Hdec Hport] Hpayload Hutf Hfrom Hid.
  unfold on_receive, try_except, bind. rewrite Hdec. simpl.
  rewrite Hdec. simpl. rewrite Hport. simpl. rewrite Hpayload. simpl.
  rewrite Hutf. simpl. rewrite Hfrom. simpl. rewrite Hid. simpl. done.
Qed.

Definition text_message : list (string * pyobj) :=
  [("from", PInt 305419896);
   ("fromId", PStr "!12345678");
   ("decoded",
    PDict [("portnum", PStr "TEXT_MESSAGE_APP");
           ("payload", PBytes [Byte.x68; Byte.x69])])].

Lemma on_receive_text_message_NameError_witness :
  on_receive (fun _ => true) text_message radio start
  = (Raise (Exn (OtherException "NameError")
              "name 'get_node_short_name' is not defined"),
     start).
Proof.
  refine (on_receive_text_message_NameError (fun _ => true) text_message
            [("portnum", PStr "TEXT_MESSAGE_APP");
             ("payload", PBytes [Byte.x68; Byte.x69])]
            [Byte.x68; Byte.x69] (PInt 305419896) (PStr "!12345678")
            radio start _ _ _ _ _);
    try reflexivity.
  split; reflexivity.
Defined.

(** X20: a text packet that lacks [payload], [from] or [fromId] makes
    [on_receive] log the [KeyError] as an error and return; a packet without
    [decoded], or with another [portnum], is ignored without any call. *)
Theorem on_receive_missing_key (utf8 : list Byte.byte -> bool)
    (packet : list (string * pyobj)) (i : interface) (st : state) :
  (passoc "decoded" packet = None -> on_receive utf8 packet i st = (Ret tt, st))
  /\ (forall decoded portnum,
        passoc "decoded" packet = Some (PDict decoded) ->
        passoc "portnum" decoded = Some portnum ->
        portnum <> PStr "TEXT_MESSAGE_APP" ->
        on_receive utf8 packet i st = (Ret tt, st))
  /\ (forall decoded,
        passoc "decoded" packet = Some (PDict decoded) ->
        passoc "portnum" decoded = None ->
        on_receive utf8 packet i st =
          (Ret tt, emit (EvLog ERROR "Error processing packet: 'portnum'") st))
  /\ (forall decoded,
        text_packet packet decoded ->
        passoc "payload" decoded = None ->
        on_receive utf8 packet i st =
          (Ret tt, emit (EvLog ERROR "Error processing packet: 'payload'") st))
  /\ (forall decoded payload,
        text_packet packet decoded ->
        passoc "payload" decoded = Some (PBytes payload) ->
        utf8 payload = true ->
        passoc "from" packet = None ->
        on_receive utf8 packet i st =
          (Ret tt, emit (EvLog ERROR "Error processing packet: 'from'") st))
  /\ (forall decoded payload sender_id,
        text_packet packet decoded ->
        passoc "payload" decoded = Some (PBytes payload) ->
        utf8 payload = true ->
        passoc "from" packet = Some sender_id ->
        passoc "fromId" packet = None ->
        on_receive utf8 packet i st =
          (Ret tt, emit (EvLog ERROR "Error processing packet: 'fromId'") st)).
Proof.
  unfold on_receive, try_except, bind.
  split; [|split; [|split; [|split; [|split]]]].
  - intros Hdec. by rewrite Hdec.
  - intros decoded portnum Hdec Hport Hne. rewrite Hdec. simpl.
    rewrite Hdec. simpl. rewrite Hport. simpl.
    destruct portnum as [| |s| |]; try done.
    destruct (String.eqb_spec s "TEXT_MESSAGE_APP"); [congruence|done].
  - intros decoded Hdec Hport. rewrite Hdec. simpl.
    rewrite Hdec. simpl. by rewrite Hport.
  - intros decoded [Hdec Hport] Hpayload. rewrite Hdec. simpl.
    rewrite Hdec. simpl. rewrite Hport. simpl. by rewrite Hpayload.
  - intros decoded payload [Hdec Hport] Hpayload Hutf Hfrom. rewrite Hdec.
    simpl. rewrite Hdec. simpl. rewrite Hport. simpl. rewrite Hpayload.
    simpl. rewrite Hutf. simpl. by rewrite Hfrom.
  - intros decoded payload sender_id [Hdec Hport] Hpayload Hutf Hfrom Hid.
    rewrite Hdec. simpl. rewrite Hdec. simpl. rewrite Hport. simpl.
    rewrite Hpayload. simpl. rewrite Hutf. simpl. rewrite Hfrom. simpl.
    by rewrite Hid.
Qed.

Lemma on_receive_missing_key_witness :
  on_receive (fun _ => true)
    [("decoded", PDict [("portnum", PStr "TEXT_MESSAGE_APP")])] radio start
  = (Ret tt, emit (EvLog ERROR "Error processing packet: 'payload'") start).
Proof.
  refine (proj1 (proj2 (proj2 (proj2
            (on_receive_missing_key (fun _ => true)
               [("decoded", PDict [("portnum", PStr "TEXT_MESSAGE_APP")])]
               radio start))))
            [("portnum", PStr "TEXT_MESSAGE_APP")] _ _);
    [split; reflexivity|reflexivity].
Defined.

(** * The rounds of message_processing.main *)

(** X21: in [message_processing.main] an exception derived from
    [Exception] that the body of a round raises (while fetching, formatting,
    sending or sleeping) is caught in that round and logged as an error,
    the round returns and the next one begins; as long as the environment
    raises nothing but such exceptions, the loop does not end, and after
    [fuel] rounds it has made [fuel] requests to the feed. *)
Theorem message_processing_main_survives_exceptions (E : Env)
    (i : interface) :
  (forall state interval st e st',
     bind (message_processing.broadcast_weather_alerts E i state)
       (fun _ => time_sleep E interval) st = (Raise e, st') ->
     is_Exception e = true ->
     message_processing.main_cycle E i state interval st =
       (Ret tt,
        State (trace st' ++
               [EvLog ERROR ("Error in main loop: " +:+ exn_str e)])
              (heap st'))
     /\ forall fuel,
          message_processing.main E (S fuel) i state interval st =
            message_processing.main E fuel i state interval
              (State (trace st' ++
                      [EvLog ERROR ("Error in main loop: " +:+ exn_str e)])
                     (heap st')))
  /\ (raises_only_Exception E ->
      forall state interval fuel st,
        (message_processing.main E fuel i state interval st).1 = Diverge
        /\ count is_get
             (trace (message_processing.main E fuel i state interval st).2)
           = (count is_get (trace st) + fuel)%nat).
Proof.
  split.
  - intros state interval st e st' Hbody He.
    pose proof (main_cycle_catches _ _ _ _ _ _ _ Hbody He) as Hcycle.
    split; [done|]. intros fuel. simpl. unfold bind at 1. by rewrite Hcycle.
  - intros HE state interval fuel st.
    by apply message_processing_main_never_ends.
Qed.

(** The radio rejects every message, the feed gives two alerts. *)
Lemma rejecting_env_raises_only_Exception :
  raises_only_Exception (rejecting_env feed_two_alerts).
Proof. repeat split; intros; by simplify_eq/=. Qed.

Lemma message_processing_main_survives_exceptions_witness :
  (message_processing.main (rejecting_env feed_two_alerts) 3 radio "IL" 300
     start).1 = Diverge
  /\ count is_get
       (trace (message_processing.main (rejecting_env feed_two_alerts) 3
                 radio "IL" 300 start).2)
     = 3%nat.
Proof.
  exact (proj2 (message_processing_main_survives_exceptions
                  (rejecting_env feed_two_alerts) radio)
           rejecting_env_raises_only_Exception "IL" 300%Z 3%nat start).
Defined.

(** * The broadcast of config_init.py *)

(** The message of [config_init.broadcast_weather_alerts] for a feature
    whose properties are a dict or are missing. *)
Definition feature_text (E : Env) (feature : json) : string :=
  match alert_props feature with
  | Some p =>
      template_config_init (field_or E p "event" "Unknown Event")
        (field_or E p "description" "No description available")
  | None => ""
  end.

(** What [config_init.broadcast_weather_alerts] does with one feature. *)
Definition send_feature (E : Env) (i : interface) (feature : json) : M unit :=
  properties <- json_get feature "properties" (JDict []) ;;
  event <- json_get properties "event" (JStr "Unknown Event") ;;
  description <- json_get properties "description"
                   (JStr "No description available") ;;
  let message := "Weather Alert: " +:+ format_json E event +:+ " - "
                 +:+ format_json E description in
  interface_sendText E i message None ;;
  print ("Broadcasting: " +:+ message).

(** The events of a feature that went out. *)
Definition feature_events (E : Env) (i : interface) (feature : json)
    : list event :=
  [EvSendText i (feature_text E feature) None;
   EvPrint ("Broadcasting: " +:+ feature_text E feature)].

Lemma send_feature_run E i feature st :
  is_Some (alert_props feature) ->
  send_feature E i feature st =
    match sendText E (trace st) i (feature_text E feature) None with
    | Returns _ =>
        (Ret tt, State (trace st ++ feature_events E i feature) (heap st))
    | Raises e =>
        (Raise e,
         State (trace st ++ [EvSendText i (feature_text E feature) None])
               (heap st))
    end.
Proof.
  intros [p Hp]. unfold feature_events, feature_text. rewrite Hp.
  destruct feature as [| | | | | |a]; try discriminate. simpl in Hp.
  assert (properties_of a p) as Hprops.
  { unfold properties_of.
    destruct (assoc "properties" a) as [[| | | | | |p']|]; try discriminate.
    - left. congruence.
    - right. split; congruence. }
  unfold send_feature, bind.
  rewrite (json_get_properties _ _ _ Hprops).
  destruct (json_get_field E p "event" "Unknown Event" st) as (ev & -> & <-).
  destruct (json_get_field E p "description" "No description available" st)
    as (d & -> & <-).
  unfold interface_sendText, call, print, emit, template_config_init. simpl.
  destruct (sendText E _ _ _ _); simpl; [|done]. by rewrite <- app_assoc.
Qed.

Lemma send_features_all E i features :
  (forall h m, sendText E h i m None = Returns tt) ->
  Forall (fun f => is_Some (alert_props f)) features ->
  forall st,
    for_each features (send_feature E i) st =
      (Ret tt,
       State (trace st ++ concat (map (feature_events E i) features))
             (heap st)).
Proof.
  intros Hsend. induction 1 as [|f features Hf _ IH]; intros st; simpl.
  - unfold ret. destruct st. simpl. by rewrite app_nil_r.
  - unfold bind at 1. rewrite (send_feature_run _ _ _ _ Hf), Hsend.
    rewrite IH. simpl. by rewrite <- app_assoc.
Qed.

(** X22: [config_init.broadcast_weather_alerts] on a feed result whose
    [features] are a list.  When the list is empty, it prints that there is
    nothing to broadcast.  Otherwise, when the properties of every feature
    are a dict or are missing and every sending succeeds, it makes for each
    feature, in the order of the feed, one call of [sendText] without a
    destination and one print of the same message, in which
    [Unknown Event] and [No description available] stand for a missing
    event and a missing description; and it returns. *)
Theorem config_init_broadcasts_each_feature (E : Env) (i : interface)
    (st : state) (body : list (string * json)) (features : list json) :
  assoc "features" body = Some (JList features) ->
  (features = [] ->
   config_init.broadcast_weather_alerts E i (JDict body) st =
     (Ret tt,
      State (trace st ++ [EvPrint "No weather alerts to broadcast."])
            (heap st)))
  /\ (features <> [] ->
      Forall (fun f => is_Some (alert_props f)) features ->
      (forall h m, sendText E h i m None = Returns tt) ->
      config_init.broadcast_weather_alerts E i (JDict body) st =
        (Ret tt,
         State (trace st ++ concat (map (feature_events E i) features))
               (heap st))).
Proof.
  intros Hfeatures. split.
  - intros ->. unfold config_init.broadcast_weather_alerts, bind. simpl.
    rewrite Hfeatures. reflexivity.
  - intros Hne Hok Hsend.
    transitivity (for_each features (send_feature E i) st).
    + unfold config_init.broadcast_weather_alerts, bind. simpl.
      rewrite Hfeatures. simpl. destruct features; [done|reflexivity].
    + by apply send_features_all.
Qed.

Lemma config_init_broadcasts_each_feature_witness :
  config_init.broadcast_weather_alerts
    (quiet_env file_tcp args_cli_host [] feed_two_alerts) radio
    (JDict [("features", JList two_alerts)]) start
  = (Ret tt,
     State [EvSendText radio
              (template_config_init "Unknown Event" "No description available")
              None;
            EvPrint ("Broadcasting: " +:+
                     template_config_init "Unknown Event"
                       "No description available");
            EvSendText radio
              (template_config_init "Unknown Event" "No description available")
              None;
            EvPrint ("Broadcasting: " +:+
                     template_config_init "Unknown Event"
                       "No description available")] ∅).
Proof.
  refine (proj2 (config_init_broadcasts_each_feature
                   (quiet_env file_tcp args_cli_host [] feed_two_alerts)
                   radio start [("features", JList two_alerts)] two_alerts
                   _) _ _ _);
    try reflexivity; try done.
  repeat constructor; eexists; reflexivity.
Defined.
